(** * Conway's Game of Life: the engine of [game.c] and the catalog of
    [patterns.c], embedded and verified.

    The C code works on a [Game] struct holding the two dimensions and two
    heap buffers of [int].  The embedding keeps that shape:

    - a C [int] is a [Z] inside the 32-bit range; signed overflow is
      undefined behaviour and is reported as [Undef];
    - a buffer is a [list Z]; reading or writing outside of it is
      undefined behaviour, reported as [Undef] as well;
    - every function that can run into undefined behaviour returns an
      [outcome]; state is passed explicitly;
    - [for] loops over a counter become [for_loop], which runs the body on
      consecutive counter values. *)

From Stdlib Require Import ZArith List Lia Bool String Ascii SpecFloat.
From stdpp Require Import base list.

Local Open Scope Z_scope.

(** ** Outcomes: a value, or undefined behaviour *)

Inductive outcome (A : Type) : Type :=
| Ret (a : A)
| Undef.

Arguments Ret {A} a.
Arguments Undef {A}.

Definition bind {A B : Type} (m : outcome A) (k : A -> outcome B) : outcome B :=
  match m with
  | Ret a => k a
  | Undef => Undef
  end.

Notation "'let!' x ':=' m 'in' k" := (bind m (fun x => k))
  (at level 10, x pattern, m at level 100, k at level 200).

(** ** C integers

    [int] is 32 bits wide and [size_t] 64 bits, as on LP64 platforms. *)

Definition INT_MIN : Z := - 2 ^ 31.
Definition INT_MAX : Z := 2 ^ 31 - 1.
Definition SIZE_MOD : Z := 2 ^ 64.

Definition int_ok (z : Z) : bool := (INT_MIN <=? z) && (z <=? INT_MAX).

(** The result of a signed operation: defined only when representable. *)
Definition int_of (z : Z) : outcome Z := if int_ok z then Ret z else Undef.
Definition int_add (a b : Z) : outcome Z := int_of (a + b).
Definition int_mul (a b : Z) : outcome Z := int_of (a * b).

(** Conversion of an [int] to [size_t], and unsigned multiplication. *)
Definition to_size_t (z : Z) : Z := z mod SIZE_MOD.
Definition size_mul (a b : Z) : Z := (a * b) mod SIZE_MOD.

Definition sizeof_int : Z := 4.

(** ** Buffers of [int] *)

Definition load (buf : list Z) (i : Z) : outcome Z :=
  if 0 <=? i then
    match buf !! Z.to_nat i with
    | Some v => Ret v
    | None => Undef
    end
  else Undef.

Definition store (buf : list Z) (i v : Z) : outcome (list Z) :=
  if (0 <=? i) && (i <? Z.of_nat (length buf))
  then Ret (<[Z.to_nat i := v]> buf)
  else Undef.

(** [for (i = lo; ...; i++) body], run for [n] iterations. *)
Fixpoint for_loop {S : Type} (lo : Z) (n : nat) (body : Z -> S -> outcome S)
    (s : S) : outcome S :=
  match n with
  | O => Ret s
  | Datatypes.S n' => let! s' := body lo s in for_loop (lo + 1) n' body s'
  end.

(** ** game.h: the [Game] struct

    [cells] and [next] are the contents of the two blocks the struct points
    to.  [game_create] obtains them from two separate [calloc] calls, so they
    never overlap: a write to one leaves the other as it is. *)

Record Game : Type := mkGame {
  width : Z;
  height : Z;
  cells : list Z;
  next : list Z
}.

Definition with_cells (g : Game) (c : list Z) : Game :=
  {| width := width g; height := height g; cells := c; next := next g |}.

Definition with_next (g : Game) (n : list Z) : Game :=
  {| width := width g; height := height g; cells := cells g; next := n |}.

(** ** game.c *)

(** The test [x < 0 || x >= g->width || y < 0 || y >= g->height]. *)
Definition outside (g : Game) (x y : Z) : bool :=
  (x <? 0) || (x >=? width g) || (y <? 0) || (y >=? height g).

(** The index expression [y * g->width + x]. *)
Definition cell_index (g : Game) (x y : Z) : outcome Z :=
  let! row := int_mul y (width g) in int_add row x.

Definition game_get_cell (g : Game) (x y : Z) : outcome Z :=
  if outside g x y then Ret 0
  else let! i := cell_index g x y in load (cells g) i.

Definition game_set_cell (g : Game) (x y alive : Z) : outcome Game :=
  if outside g x y then Ret g
  else
    let! i := cell_index g x y in
    let! c := store (cells g) i (if alive =? 0 then 0 else 1) in
    Ret (with_cells g c).

(** Inner loop body of [count_neighbors]. *)
Definition count_one (g : Game) (x y dy dx count : Z) : outcome Z :=
  if (dx =? 0) && (dy =? 0) then Ret count
  else
    let! nx := int_add x dx in
    let! ny := int_add y dy in
    let! c := game_get_cell g nx ny in
    int_add count c.

Definition count_neighbors (g : Game) (x y : Z) : outcome Z :=
  for_loop (-1) 3
    (fun dy count => for_loop (-1) 3 (fun dx count => count_one g x y dy dx count) count)
    0.

(** Body of the double loop of [game_step]: one cell of the next
    generation, written into [next]. *)
Definition step_cell (y x : Z) (g : Game) : outcome Game :=
  let! n := count_neighbors g x y in
  let! i := cell_index g x y in
  let! alive := load (cells g) i in
  let v := if alive =? 0
           then (if n =? 3 then 1 else 0)
           else (if (n =? 2) || (n =? 3) then 1 else 0) in
  let! nx := store (next g) i v in
  Ret (with_next g nx).

(** The double loop.  Its bounds [g->height] and [g->width] are read from
    the struct, which the body never writes. *)
Definition step_pass (g : Game) : outcome Game :=
  for_loop 0 (Z.to_nat (height g))
    (fun y g1 => for_loop 0 (Z.to_nat (width g1)) (step_cell y) g1)
    g.

(** The pointer swap that ends [game_step]. *)
Definition swap_buffers (g : Game) : Game :=
  {| width := width g; height := height g; cells := next g; next := cells g |}.

Definition game_step (g : Game) : outcome Game :=
  let! g1 := step_pass g in Ret (swap_buffers g1).

(** *** Random numbers

    [rand()] draws from a hidden generator.  Its state is made explicit: the
    sequence of values it is going to return, and how many were taken. *)

Record Rng : Type := mkRng {
  rand_seq : nat -> Z;
  rand_pos : nat
}.

Definition rand (r : Rng) : Z * Rng :=
  (rand_seq r (rand_pos r), {| rand_seq := rand_seq r; rand_pos := Datatypes.S (rand_pos r) |}).

(** *** [float]: IEEE 754 binary32 *)

Definition float : Type := spec_float.
Definition float_of_int (z : Z) : float := binary_normalize 24 128 z 0 false.
Definition float_div (a b : float) : float := SFdiv 24 128 a b.
Definition float_lt (a b : float) : bool := SFltb a b.
Definition float_le (a b : float) : bool := SFleb a b.

Definition float_zero : float := S754_zero false.
Definition float_one : float := float_of_int 1.

Section Randomize.

(** [RAND_MAX] comes from the C library's [stdlib.h]. *)
Variable RAND_MAX : Z.

(** The value [(float)rand() / (float)RAND_MAX] for a result [k] of [rand()]. *)
Definition draw (k : Z) : float :=
  float_div (float_of_int k) (float_of_int RAND_MAX).

(** Body of the double loop of [game_randomize]. *)
Definition randomize_cell (density : float) (y x : Z) (s : Game * Rng)
    : outcome (Game * Rng) :=
  let (k, rng) := rand (snd s) in
  let r := draw k in
  let! i := cell_index (fst s) x y in
  let! c := store (cells (fst s)) i (if float_lt r density then 1 else 0) in
  Ret (with_cells (fst s) c, rng).

Definition game_randomize (g : Game) (density : float) (rng : Rng)
    : outcome (Game * Rng) :=
  for_loop 0 (Z.to_nat (height g))
    (fun y s => for_loop 0 (Z.to_nat (width (fst s))) (randomize_cell density y) s)
    (g, rng).

End Randomize.

(** *** [game_clear]

    [memset(buf, 0, n)] on a block of [int]: the first [n] bytes become zero;
    [n] beyond the block is undefined behaviour. *)
Definition memset_zero (buf : list Z) (n : Z) : outcome (list Z) :=
  if n <=? sizeof_int * Z.of_nat (length buf)
  then Ret (replicate (Z.to_nat (n / sizeof_int)) 0 ++ drop (Z.to_nat (n / sizeof_int)) buf)
  else Undef.

(** The byte count [g->width * g->height * sizeof(int)]: an [int] product,
    converted to [size_t] for the second product. *)
Definition clear_bytes (g : Game) : outcome Z :=
  let! size := int_mul (width g) (height g) in
  Ret (size_mul (to_size_t size) sizeof_int).

Definition game_clear (g : Game) : outcome Game :=
  let! n := clear_bytes g in
  let! c := memset_zero (cells g) n in
  let! nx := memset_zero (next g) n in
  Ret {| width := width g; height := height g; cells := c; next := nx |}.

(** *** [game_create]

    Whether an allocation succeeds is up to the C library.  An [Allocator]
    says what it answers to the three requests of [game_create]; the two
    [calloc] answers may depend on the number of elements asked for. *)

Record Allocator : Type := mkAllocator {
  malloc_game : bool;
  calloc_cells : Z -> bool;
  calloc_next : Z -> bool
}.

(** [calloc(nmemb, size)] for a block of [int]: no block when the byte count
    does not fit [size_t] or the library declines; a zeroed block otherwise. *)
Definition calloc (grant : bool) (nmemb size : Z) : option (list Z) :=
  if (nmemb * size <? SIZE_MOD) && grant
  then Some (replicate (Z.to_nat nmemb) 0)
  else None.

(** [Ret None] is the [NULL] result. *)
Definition game_create (a : Allocator) (w h : Z) : outcome (option Game) :=
  if negb (malloc_game a) then Ret None
  else
    let! size := int_mul w h in
    let n := to_size_t size in
    match calloc (calloc_cells a n) n sizeof_int, calloc (calloc_next a n) n sizeof_int with
    | Some c, Some nx => Ret (Some {| width := w; height := h; cells := c; next := nx |})
    | _, _ => Ret None
    end.

(** ** patterns.h, patterns.c *)

Inductive PatternType : Type :=
| PATTERN_GLIDER
| PATTERN_BLINKER
| PATTERN_TOAD
| PATTERN_BEACON
| PATTERN_PULSAR
| PATTERN_GOSPER_GUN.

(** [set_cells]: [coords] is the array of pairs, [count] its length as passed
    by the caller. *)
Definition set_cells (g : Game) (ox oy : Z) (coords : list (Z * Z)) (count : Z)
    : outcome Game :=
  for_loop 0 (Z.to_nat count)
    (fun i g1 =>
       match coords !! Z.to_nat i with
       | Some (cx, cy) =>
           let! x := int_add ox cx in
           let! y := int_add oy cy in
           game_set_cell g1 x y 1
       | None => Undef
       end)
    g.

Definition glider_coords : list (Z * Z) := [(1,0);(2,1);(0,2);(1,2);(2,2)].
Definition blinker_coords : list (Z * Z) := [(0,0);(1,0);(2,0)].
Definition toad_coords : list (Z * Z) := [(1,0);(2,0);(3,0);(0,1);(1,1);(2,1)].
Definition beacon_coords : list (Z * Z) := [(0,0);(1,0);(0,1);(3,2);(2,3);(3,3)].
Definition pulsar_coords : list (Z * Z) :=
  [(2,0);(3,0);(4,0);(8,0);(9,0);(10,0);
   (0,2);(5,2);(7,2);(12,2);
   (0,3);(5,3);(7,3);(12,3);
   (0,4);(5,4);(7,4);(12,4);
   (2,5);(3,5);(4,5);(8,5);(9,5);(10,5);
   (2,7);(3,7);(4,7);(8,7);(9,7);(10,7);
   (0,8);(5,8);(7,8);(12,8);
   (0,9);(5,9);(7,9);(12,9);
   (0,10);(5,10);(7,10);(12,10);
   (2,12);(3,12);(4,12);(8,12);(9,12);(10,12)].
Definition gosper_gun_coords : list (Z * Z) :=
  [(0,4);(0,5);(1,4);(1,5);
   (10,4);(10,5);(10,6);(11,3);(11,7);(12,2);(12,8);(13,2);(13,8);
   (14,5);(15,3);(15,7);(16,4);(16,5);(16,6);(17,5);
   (20,2);(20,3);(20,4);(21,2);(21,3);(21,4);(22,1);(22,5);
   (24,0);(24,1);(24,5);(24,6);
   (34,2);(34,3);(35,2);(35,3)].

Definition place_glider (g : Game) (x y : Z) := set_cells g x y glider_coords 5.
Definition place_blinker (g : Game) (x y : Z) := set_cells g x y blinker_coords 3.
Definition place_toad (g : Game) (x y : Z) := set_cells g x y toad_coords 6.
Definition place_beacon (g : Game) (x y : Z) := set_cells g x y beacon_coords 6.
Definition place_pulsar (g : Game) (x y : Z) := set_cells g x y pulsar_coords 48.
Definition place_gosper_gun (g : Game) (x y : Z) := set_cells g x y gosper_gun_coords 36.

Definition pattern_load (g : Game) (type : PatternType) (x y : Z) : outcome Game :=
  match type with
  | PATTERN_GLIDER => place_glider g x y
  | PATTERN_BLINKER => place_blinker g x y
  | PATTERN_TOAD => place_toad g x y
  | PATTERN_BEACON => place_beacon g x y
  | PATTERN_PULSAR => place_pulsar g x y
  | PATTERN_GOSPER_GUN => place_gosper_gun g x y
  end.

(** [strcmp] on C strings, given as the characters before the terminator.
    C fixes only the sign of a nonzero result. *)
Fixpoint strcmp (a b : string) : Z :=
  match a, b with
  | EmptyString, EmptyString => 0
  | EmptyString, String _ _ => -1
  | String _ _, EmptyString => 1
  | String c a', String d b' =>
      if Ascii.eqb c d then strcmp a' b'
      else if (N_of_ascii c <? N_of_ascii d)%N then -1 else 1
  end.

(** [pattern_from_name]: [out] is the content of the object the pointer
    refers to before the call ([None]: never assigned); the result pairs the
    returned [int] with the content after the call. *)
Definition pattern_from_name (name : string) (out : option PatternType)
    : Z * option PatternType :=
  if strcmp name "glider" =? 0 then (1, Some PATTERN_GLIDER)
  else if strcmp name "blinker" =? 0 then (1, Some PATTERN_BLINKER)
  else if strcmp name "toad" =? 0 then (1, Some PATTERN_TOAD)
  else if strcmp name "beacon" =? 0 then (1, Some PATTERN_BEACON)
  else if strcmp name "pulsar" =? 0 then (1, Some PATTERN_PULSAR)
  else if strcmp name "gosper" =? 0 then (1, Some PATTERN_GOSPER_GUN)
  else if strcmp name "gosper_gun" =? 0 then (1, Some PATTERN_GOSPER_GUN)
  else (0, out).

(** ** The operations a driver applies to a grid *)

Inductive Op : Type :=
| OpSetCell (x y alive : Z)
| OpClear
| OpRandomize (density : float)
| OpStep
| OpPlace (type : PatternType) (x y : Z).

Section Driver.

Variable RAND_MAX : Z.

Definition run_op (o : Op) (s : Game * Rng) : outcome (Game * Rng) :=
  match o with
  | OpSetCell x y alive => let! g := game_set_cell (fst s) x y alive in Ret (g, snd s)
  | OpClear => let! g := game_clear (fst s) in Ret (g, snd s)
  | OpRandomize density => game_randomize RAND_MAX (fst s) density (snd s)
  | OpStep => let! g := game_step (fst s) in Ret (g, snd s)
  | OpPlace type x y => let! g := pattern_load (fst s) type x y in Ret (g, snd s)
  end.

Fixpoint run_ops (os : list Op) (s : Game * Rng) : outcome (Game * Rng) :=
  match os with
  | [] => Ret s
  | o :: os' => let! s' := run_op o s in run_ops os' s'
  end.

End Driver.

(** ** Vocabulary of the statements *)

(** A cell value of the data model: 0 (dead) or 1 (alive). *)
Definition binary (v : Z) : Prop := v = 0 \/ v = 1.

(** What [game_create] establishes and every operation relies on: both
    buffers hold [width * height] cells, a count that fits an [int]. *)
Record grid_wf (g : Game) : Prop := mk_grid_wf {
  wf_size : 0 <= width g * height g <= INT_MAX;
  wf_cells : Z.of_nat (length (cells g)) = width g * height g;
  wf_next : Z.of_nat (length (next g)) = width g * height g
}.

(** [(x, y)] is a cell of the grid. *)
Definition in_grid (g : Game) (x y : Z) : Prop :=
  0 <= x < width g /\ 0 <= y < height g.

(** Whether the current generation has a live cell at [(x, y)], as read
    through [game_get_cell]. *)
Definition alive_at (g : Game) (x y : Z) : bool :=
  match game_get_cell g x y with
  | Ret v => negb (v =? 0)
  | Undef => false
  end.

(** The eight offsets of the Moore neighbourhood. *)
Definition moore_offsets : list (Z * Z) :=
  [(-1,-1); (0,-1); (1,-1); (-1,0); (1,0); (-1,1); (0,1); (1,1)].

(** Number of live cells among the eight neighbours of [(x, y)]. *)
Definition live_count (g : Game) (x y : Z) : Z :=
  Z.of_nat (length (List.filter (fun d => alive_at g (x + fst d) (y + snd d)) moore_offsets)).

(** Conway's rule. *)
Definition conway (alive : bool) (n : Z) : bool :=
  if alive then (n =? 2) || (n =? 3) else n =? 3.

(** A truth value as a cell value. *)
Definition b2z (b : bool) : Z := if b then 1 else 0.

(** The names [pattern_from_name] knows. *)
Definition recognized_names : list string :=
  ["glider"; "blinker"; "toad"; "beacon"; "pulsar"; "gosper"; "gosper_gun"]%string.

(** An allocator that grants every request. *)
Definition granting : Allocator :=
  {| malloc_game := true; calloc_cells := fun _ => true; calloc_next := fun _ => true |}.

(** A 3 x 2 grid with one live cell at (1, 0), used to exercise the
    statements. *)
Definition sample_grid : Game :=
  {| width := 3; height := 2; cells := [0; 1; 0; 0; 0; 0]; next := [0; 0; 0; 0; 0; 0] |}.

(** *** Reading a whole grid *)

(** Whether [(x, y)] is one of the coordinates of [l]. *)
Definition coord_in (l : list (Z * Z)) (x y : Z) : bool :=
  existsb (fun c => (fst c =? x) && (snd c =? y)) l.

(** The integers [0 .. n-1]. *)
Definition range (n : Z) : list Z := List.map Z.of_nat (seq 0 (Z.to_nat n)).

(** Decides that the live cells of [g] are those of [l], all inside the grid. *)
Definition alive_exactly (g : Game) (l : list (Z * Z)) : bool :=
  forallb (fun y =>
    forallb (fun x =>
      match game_get_cell g x y with
      | Ret v => v =? b2z (coord_in l x y)
      | Undef => false
      end) (range (width g))) (range (height g))
  && forallb (fun c => negb (outside g (fst c) (snd c))) l.

(** The grids [game_create] returns for 10 x 10 and for 3 x 2. *)
Definition fresh_10x10 : Game :=
  {| width := 10; height := 10; cells := replicate 100 0; next := replicate 100 0 |}.

Definition fresh_3x2 : Game :=
  {| width := 3; height := 2; cells := replicate 6 0; next := replicate 6 0 |}.

(** *** The pass of [game_step] *)

(** The value Conway's rule gives cell [(x, y)] in the generation after [g]. *)
Definition next_value (g : Game) (x y : Z) : Z :=
  b2z (conway (alive_at g x y) (live_count g x y)).

(** State of the pass of [game_step] over [g] once the cells selected by
    [done] are written: only [next] differs from [g]. *)
Definition pass_state (g : Game) (done : Z -> Z -> Prop) (q : Game) : Prop :=
  q = with_next g (next q) /\
  length (next q) = length (next g) /\
  forall x y, in_grid g x y -> done x y ->
              next q !! Z.to_nat (y * width g + x) = Some (next_value g x y).

(** *** Invariants *)

(** [P] survives the write of a 0 or a 1 into either buffer. *)
Definition write_closed (P : Game -> Prop) : Prop :=
  (forall q i v, binary v -> P q -> P (with_cells q (<[i := v]> (cells q)))) /\
  (forall q i v, binary v -> P q -> P (with_next q (<[i := v]> (next q)))).

(** The grid has width [w] and height [h]. *)
Definition same_dims (w h : Z) (q : Game) : Prop := width q = w /\ height q = h.

(** Well-formed, with 0 or 1 in every cell of both buffers. *)
Definition grid_inv (q : Game) : Prop :=
  grid_wf q /\ Forall binary (cells q) /\ Forall binary (next q).

(** *** Pattern placement *)

(** The coordinate table of each pattern. *)
Definition pattern_coords (t : PatternType) : list (Z * Z) :=
  match t with
  | PATTERN_GLIDER => glider_coords
  | PATTERN_BLINKER => blinker_coords
  | PATTERN_TOAD => toad_coords
  | PATTERN_BEACON => beacon_coords
  | PATTERN_PULSAR => pulsar_coords
  | PATTERN_GOSPER_GUN => gosper_gun_coords
  end.

(** No coordinate of the placement overflows an [int]. *)
Definition placement_fits (coords : list (Z * Z)) (ox oy : Z) : bool :=
  forallb (fun c => int_ok (ox + fst c) && int_ok (oy + snd c)) coords.

(** The operation meets no signed overflow: a placement keeps every
    coordinate it computes inside [int]. *)
Definition op_defined (o : Op) : bool :=
  match o with
  | OpPlace t x y => placement_fits (pattern_coords t) x y
  | _ => true
  end.

(** A run that uses each of the five operations. *)
Definition sample_ops : list Op :=
  [OpSetCell 1 1 5; OpPlace PATTERN_GLIDER 0 0; OpStep; OpRandomize float_one; OpClear].

(** *** The pass of [game_randomize] *)

(** The generator after [n] more calls of [rand()]. *)
Definition advance (rng : Rng) (n : nat) : Rng :=
  {| rand_seq := rand_seq rng; rand_pos := (rand_pos rng + n)%nat |}.

(** The draw that [game_randomize], started with [rng], makes for cell
    [(x, y)] of [g]: cells are visited in row-major order. *)
Definition cell_draw (R : Z) (g : Game) (rng : Rng) (x y : Z) : float :=
  draw R (rand_seq rng (rand_pos rng + Z.to_nat (y * width g + x))%nat).

(** State of the pass of [game_randomize] over [g] after [count] draws,
    with the cells selected by [done] written. *)
Definition fill_state (R : Z) (g : Game) (rng : Rng) (d : float) (count : Z)
    (done : Z -> Z -> Prop) (s : Game * Rng) : Prop :=
  fst s = with_cells g (cells (fst s)) /\
  length (cells (fst s)) = length (cells g) /\
  snd s = advance rng (Z.to_nat count) /\
  forall x y, in_grid g x y -> done x y ->
    cells (fst s) !! Z.to_nat (y * width g + x)
    = Some (b2z (float_lt (cell_draw R g rng x y) d)).

(** Every draw the generator makes from its current position on lies in
    [[0, 1)]. *)
Definition unit_draws (R : Z) (rng : Rng) : Prop :=
  forall n, (rand_pos rng <= n)%nat ->
    float_le float_zero (draw R (rand_seq rng n)) = true /\
    float_lt (draw R (rand_seq rng n)) float_one = true.

(** A generator that returns 0 for ever. *)
Definition zero_rng : Rng := {| rand_seq := fun _ => 0; rand_pos := O |}.

(** The value of [RAND_MAX] in the GNU C library. *)
Definition GLIBC_RAND_MAX : Z := 2147483647.

(** *** Several generations *)

(** [n] calls of [game_step] in a row, as the main loop makes them. *)
Fixpoint game_steps (n : nat) (g : Game) : outcome Game :=
  match n with
  | O => Ret g
  | Datatypes.S n' => let! g1 := game_step g in game_steps n' g1
  end.

(** No cell of the grid is alive. *)
Definition all_dead (g : Game) : Prop :=
  forall x y, game_get_cell g x y = Ret 0.

(** The names under which [pattern_from_name] finds each pattern. *)
Definition pattern_names (t : PatternType) : list string :=
  match t with
  | PATTERN_GLIDER => ["glider"]
  | PATTERN_BLINKER => ["blinker"]
  | PATTERN_TOAD => ["toad"]
  | PATTERN_BEACON => ["beacon"]
  | PATTERN_PULSAR => ["pulsar"]
  | PATTERN_GOSPER_GUN => ["gosper"; "gosper_gun"]
  end%string.

(** A finite [float] above zero. *)
Definition float_pos_finite (f : float) : bool :=
  match f with
  | S754_finite false _ _ => true
  | _ => false
  end.

(** Every value [rand()] is going to return is at least 0, as the C
    standard requires of it. *)
Definition rand_nonneg (rng : Rng) : Prop := forall n, 0 <= rand_seq rng n.

(** *** The catalog in motion *)

(** The coordinates of a pattern placed at origin [(ox, oy)]. *)
Definition shifted (coords : list (Z * Z)) (ox oy : Z) : list (Z * Z) :=
  List.map (fun c => (ox + fst c, oy + snd c)) coords.

(** The period patterns.h documents for each pattern: the oscillators
    repeat, the glider reappears displaced, the gun has fired once more. *)
Definition pattern_period (t : PatternType) : nat :=
  match t with
  | PATTERN_GLIDER => 4
  | PATTERN_BLINKER | PATTERN_TOAD | PATTERN_BEACON => 2
  | PATTERN_PULSAR => 3
  | PATTERN_GOSPER_GUN => 30
  end.

Definition is_oscillator (t : PatternType) : bool :=
  match t with
  | PATTERN_BLINKER | PATTERN_TOAD | PATTERN_BEACON | PATTERN_PULSAR => true
  | _ => false
  end.

(** The grid [game_create] returns for [w] x [h]. *)
Definition fresh_grid (w h : Z) : Game :=
  {| width := w; height := h;
     cells := replicate (Z.to_nat (w * h)) 0;
     next := replicate (Z.to_nat (w * h)) 0 |}.

(** Decides that the live cells of [g] after [n] generations are those of
    [l]. *)
Definition alive_after (n : nat) (g : Game) (l : list (Z * Z)) : bool :=
  match game_steps n g with
  | Ret g' => alive_exactly g' l
  | Undef => false
  end.

(** Decides, for pattern [t] placed at [(ox, oy)] on a fresh [w] x [h]
    grid, that the pattern is back after [pattern_period t] generations and
    after no smaller positive number of them. *)
Definition oscillates (w h : Z) (t : PatternType) (ox oy : Z) : bool :=
  match pattern_load (fresh_grid w h) t ox oy with
  | Ret g0 =>
      alive_after (pattern_period t) g0 (shifted (pattern_coords t) ox oy)
      && forallb (fun k => negb (alive_after k g0 (shifted (pattern_coords t) ox oy)))
           (seq 1 (pattern_period t - 1))
  | Undef => false
  end.

(** Decides that a glider placed at [(ox, oy)] on a fresh [w] x [h] grid is
    a glider at [(ox + 1, oy + 1)] four generations later. *)
Definition glides (w h ox oy : Z) : bool :=
  match pattern_load (fresh_grid w h) PATTERN_GLIDER ox oy with
  | Ret g0 => alive_after 4 g0 (shifted glider_coords (ox + 1) (oy + 1))
  | Undef => false
  end.

(** ** render.h, render.c

    The SDL window and renderer are outside the program; what
    [renderer_draw] does to them is the sequence of SDL calls it makes,
    recorded in order. *)

Record Renderer : Type := mkRenderer {
  cell_size : Z;
  grid_w : Z;
  grid_h : Z
}.

Inductive DrawCmd : Type :=
| SDL_SetRenderDrawColor (r g b a : Z)
| SDL_RenderClear
| SDL_RenderFillRect (x y w h : Z)
| SDL_RenderDrawLine (x1 y1 x2 y2 : Z)
| SDL_RenderPresent.

Definition int_sub (a b : Z) : outcome Z := int_of (a - b).

(** [for (i = 0; i <= hi; i++) body]: when the loop is entered, the last
    increment computes [hi + 1]. *)
Definition for_loop_le {S : Type} (hi : Z) (body : Z -> S -> outcome S) (s : S)
    : outcome S :=
  if hi <? 0 then Ret s
  else let! _ := int_add hi 1 in for_loop 0 (Z.to_nat (hi + 1)) body s.

(** Body of the double loop of step 2 of [renderer_draw]. *)
Definition draw_cell (cs : Z) (g : Game) (y x : Z) (tr : list DrawCmd)
    : outcome (list DrawCmd) :=
  let! v := game_get_cell g x y in
  if v =? 0 then Ret tr
  else
    let! px := int_mul x cs in
    let! py := int_mul y cs in
    let! sz := int_sub cs 1 in
    Ret (tr ++ [SDL_RenderFillRect px py sz sz]).

Definition draw_vline (cs : Z) (g : Game) (x : Z) (tr : list DrawCmd)
    : outcome (list DrawCmd) :=
  let! px := int_mul x cs in
  let! yend := int_mul (height g) cs in
  Ret (tr ++ [SDL_RenderDrawLine px 0 px yend]).

Definition draw_hline (cs : Z) (g : Game) (y : Z) (tr : list DrawCmd)
    : outcome (list DrawCmd) :=
  let! py := int_mul y cs in
  let! xend := int_mul (width g) cs in
  Ret (tr ++ [SDL_RenderDrawLine 0 py xend py]).

Definition renderer_draw (r : Renderer) (g : Game) : outcome (list DrawCmd) :=
  let cs := cell_size r in
  let tr1 := [SDL_SetRenderDrawColor 20 20 20 255; SDL_RenderClear;
              SDL_SetRenderDrawColor 0 200 0 255] in
  let! tr2 :=
    for_loop 0 (Z.to_nat (height g))
      (fun y tr => for_loop 0 (Z.to_nat (width g)) (draw_cell cs g y) tr) tr1 in
  let! tr3 :=
    if cs >=? 4 then
      let! t1 := for_loop_le (width g) (draw_vline cs g)
                   (tr2 ++ [SDL_SetRenderDrawColor 40 40 40 255]) in
      for_loop_le (height g) (draw_hline cs g) t1
    else Ret tr2 in
  Ret (tr3 ++ [SDL_RenderPresent]).

(** *** [renderer_draw_hud]

    [%d] prints an [int] in decimal; [snprintf] with a buffer of [size]
    bytes keeps at most [size - 1] characters. *)

Definition digit_char (d : Z) : ascii := ascii_of_N (48 + Z.to_N d).

Fixpoint dec_digits (fuel : nat) (n : Z) : string :=
  match fuel with
  | O => EmptyString
  | Datatypes.S f =>
      if n <? 10 then String (digit_char n) EmptyString
      else (dec_digits f (n / 10) ++ String (digit_char (n mod 10)) EmptyString)%string
  end.

Definition fmt_d (z : Z) : string :=
  if z <? 0 then String "-" (dec_digits (Datatypes.S (Z.to_nat (Z.log2 (- z)))) (- z))
  else dec_digits (Datatypes.S (Z.to_nat (Z.log2 z))) z.

Definition snprintf (size : Z) (text : string) : string :=
  if Z.of_nat (String.length text) <? size then text
  else substring 0 (Z.to_nat (size - 1)) text.

(** The title [renderer_draw_hud] hands to [SDL_SetWindowTitle]. *)
Definition renderer_draw_hud (generation paused fps : Z) : string :=
  snprintf 128
    ("Game of Life | Gen: " ++ fmt_d generation ++ " | FPS: " ++ fmt_d fps
       ++ (if (paused =? 0)%Z then "" else " | PAUSED"))%string.

(** ** main.c *)

Record Config : Type := mkConfig {
  cfg_grid_w : Z;
  cfg_grid_h : Z;
  cfg_cell_size : Z;
  cfg_pattern_name : string;
  cfg_density : float;
  cfg_target_fps : Z
}.

(** The [float] literal [0.3f]. *)
Definition float_0_3 : float := S754_finite false 10066330 (-25).

(** The defaults [main] starts from. *)
Definition default_config : Config :=
  {| cfg_grid_w := 80; cfg_grid_h := 60; cfg_cell_size := 10;
     cfg_pattern_name := "random"; cfg_density := float_0_3; cfg_target_fps := 10 |}.

(** How the argument loop of [main] ends: all arguments read, or one of
    the two [return] statements, after [--help] / [-h] (0) or after an
    argument that is no usable option (1), which is reported. *)
Inductive ParseResult : Type :=
| Parsed (c : Config)
| HelpShown
| UnknownOption (arg : string).

Definition exit_code (r : ParseResult) : option Z :=
  match r with
  | Parsed _ => None
  | HelpShown => Some 0
  | UnknownOption _ => Some 1
  end.

Section Arguments.

(** [atoi] and the conversion [(float)atof(...)] of the C library. *)
Variable atoi : string -> Z.
Variable atof_float : string -> float.

(** The branch taken for argument [a] when it is followed by [v]. *)
Definition apply_option (a v : string) (c : Config) : option Config :=
  if strcmp a "--width" =? 0 then
    Some {| cfg_grid_w := atoi v; cfg_grid_h := cfg_grid_h c; cfg_cell_size := cfg_cell_size c;
            cfg_pattern_name := cfg_pattern_name c; cfg_density := cfg_density c;
            cfg_target_fps := cfg_target_fps c |}
  else if strcmp a "--height" =? 0 then
    Some {| cfg_grid_w := cfg_grid_w c; cfg_grid_h := atoi v; cfg_cell_size := cfg_cell_size c;
            cfg_pattern_name := cfg_pattern_name c; cfg_density := cfg_density c;
            cfg_target_fps := cfg_target_fps c |}
  else if strcmp a "--cell-size" =? 0 then
    Some {| cfg_grid_w := cfg_grid_w c; cfg_grid_h := cfg_grid_h c; cfg_cell_size := atoi v;
            cfg_pattern_name := cfg_pattern_name c; cfg_density := cfg_density c;
            cfg_target_fps := cfg_target_fps c |}
  else if strcmp a "--pattern" =? 0 then
    Some {| cfg_grid_w := cfg_grid_w c; cfg_grid_h := cfg_grid_h c; cfg_cell_size := cfg_cell_size c;
            cfg_pattern_name := v; cfg_density := cfg_density c;
            cfg_target_fps := cfg_target_fps c |}
  else if strcmp a "--density" =? 0 then
    Some {| cfg_grid_w := cfg_grid_w c; cfg_grid_h := cfg_grid_h c; cfg_cell_size := cfg_cell_size c;
            cfg_pattern_name := cfg_pattern_name c; cfg_density := atof_float v;
            cfg_target_fps := cfg_target_fps c |}
  else if strcmp a "--fps" =? 0 then
    Some {| cfg_grid_w := cfg_grid_w c; cfg_grid_h := cfg_grid_h c; cfg_cell_size := cfg_cell_size c;
            cfg_pattern_name := cfg_pattern_name c; cfg_density := cfg_density c;
            cfg_target_fps := atoi v |}
  else None.

(** The last two branches: [--help] / [-h], or anything else. *)
Definition no_option (a : string) : ParseResult :=
  if (strcmp a "--help" =? 0) || (strcmp a "-h" =? 0) then HelpShown
  else UnknownOption a.

(** The loop [for (i = 1; i < argc; i++)] over [argv[1..]]: an option
    branch needs [i + 1 < argc] and consumes the next argument too. *)
Fixpoint parse_args (args : list string) (c : Config) : ParseResult :=
  match args with
  | [] => Parsed c
  | a :: rest =>
      match rest with
      | [] => no_option a
      | v :: rest' =>
          match apply_option a v c with
          | Some c' => parse_args rest' c'
          | None => no_option a
          end
      end
  end.

End Arguments.

(** The clamp of the target FPS to [1, 60] after the arguments are read. *)
Definition clamp_fps (fps : Z) : Z :=
  let f := if fps <? 1 then 1 else fps in
  if f >? 60 then 60 else f.

(** Integer division of two [int]. *)
Definition int_div (a b : Z) : outcome Z :=
  if b =? 0 then Undef else int_of (Z.quot a b).

Definition to_uint32 (z : Z) : Z := z mod 2 ^ 32.

(** [Uint32 frame_delay = 1000 / target_fps]. *)
Definition frame_delay_of (fps : Z) : outcome Z :=
  let! d := int_div 1000 fps in Ret (to_uint32 d).

(** The events [SDL_PollEvent] hands to the loop, as far as the [switch]
    statements tell them apart. *)
Inductive Key : Type :=
| SDLK_ESCAPE | SDLK_SPACE | SDLK_r | SDLK_PLUS | SDLK_EQUALS | SDLK_MINUS | SDLK_other.

Inductive Event : Type :=
| SDL_QUIT
| SDL_KEYDOWN (sym : Key)
| SDL_other.

(** The variables of the main loop, with the grid and the generator. *)
Record Loop : Type := mkLoop {
  running : Z;
  paused : Z;
  generation : Z;
  target_fps : Z;
  frame_delay : Z;
  game : Game;
  rng : Rng
}.

Section MainLoop.

Variable RAND_MAX : Z.
Variable density : float.
Variable renderer : Renderer.

Definition handle_event (ev : Event) (st : Loop) : outcome Loop :=
  match ev with
  | SDL_QUIT | SDL_KEYDOWN SDLK_ESCAPE =>
      Ret {| running := 0; paused := paused st; generation := generation st;
             target_fps := target_fps st; frame_delay := frame_delay st;
             game := game st; rng := rng st |}
  | SDL_KEYDOWN SDLK_SPACE =>
      Ret {| running := running st; paused := if paused st =? 0 then 1 else 0;
             generation := generation st;
             target_fps := target_fps st; frame_delay := frame_delay st;
             game := game st; rng := rng st |}
  | SDL_KEYDOWN SDLK_r =>
      let! s := game_randomize RAND_MAX (game st) density (rng st) in
      Ret {| running := running st; paused := paused st; generation := 0;
             target_fps := target_fps st; frame_delay := frame_delay st;
             game := fst s; rng := snd s |}
  | SDL_KEYDOWN SDLK_PLUS | SDL_KEYDOWN SDLK_EQUALS =>
      if target_fps st <? 60 then
        let! fps := int_add (target_fps st) 2 in
        let! d := frame_delay_of fps in
        Ret {| running := running st; paused := paused st; generation := generation st;
               target_fps := fps; frame_delay := d;
               game := game st; rng := rng st |}
      else Ret st
  | SDL_KEYDOWN SDLK_MINUS =>
      if target_fps st >? 1 then
        let! fps0 := int_sub (target_fps st) 2 in
        let fps := if fps0 <? 1 then 1 else fps0 in
        let! d := frame_delay_of fps in
        Ret {| running := running st; paused := paused st; generation := generation st;
               target_fps := fps; frame_delay := d;
               game := game st; rng := rng st |}
      else Ret st
  | SDL_KEYDOWN SDLK_other | SDL_other => Ret st
  end.

(** The inner loop [while (SDL_PollEvent(&event))] over the pending events. *)
Fixpoint handle_events (evs : list Event) (st : Loop) : outcome Loop :=
  match evs with
  | [] => Ret st
  | ev :: evs' => let! st' := handle_event ev st in handle_events evs' st'
  end.

(** What one frame shows: the SDL calls of [renderer_draw] and the window
    title. *)
Definition Screen : Type := (list DrawCmd * string)%type.

(** One pass through the body of [while (running)], for the events pending
    at its start.  The wait at the end of the body changes no variable. *)
Definition frame (evs : list Event) (st : Loop) : outcome (Loop * Screen) :=
  let! st1 := handle_events evs st in
  let! st2 :=
    if paused st1 =? 0 then
      let! g := game_step (game st1) in
      let! gen := int_add (generation st1) 1 in
      Ret {| running := running st1; paused := paused st1; generation := gen;
             target_fps := target_fps st1; frame_delay := frame_delay st1;
             game := g; rng := rng st1 |}
    else Ret st1 in
  let! tr := renderer_draw renderer (game st2) in
  Ret (st2, (tr, renderer_draw_hud (generation st2) (paused st2) (target_fps st2))).

(** [while (running)], fed with the events pending at the start of each
    frame; the screens shown are collected in order. *)
Fixpoint main_loop (batches : list (list Event)) (st : Loop) (shown : list Screen)
    : outcome (Loop * list Screen) :=
  match batches with
  | [] => Ret (st, shown)
  | evs :: batches' =>
      if running st =? 0 then Ret (st, shown)
      else
        let! r := frame evs st in
        main_loop batches' (fst r) (shown ++ [snd r])
  end.

(** The state the loop starts in. *)
Definition initial_loop (fps : Z) (g : Game) (r : Rng) : outcome Loop :=
  let! d := frame_delay_of fps in
  Ret {| running := 1; paused := 0; generation := 0; target_fps := fps;
         frame_delay := d; game := g; rng := r |}.

End MainLoop.

(** Loading of the initial state in [main]: random fill for the name
    ["random"] and for a name [pattern_from_name] does not know, the
    pattern at a quarter of the grid otherwise. *)
Definition load_initial (RAND_MAX : Z) (c : Config) (g : Game) (r : Rng)
    : outcome (Game * Rng) :=
  if strcmp (cfg_pattern_name c) "random" =? 0 then
    game_randomize RAND_MAX g (cfg_density c) r
  else
    let found := pattern_from_name (cfg_pattern_name c) None in
    if fst found =? 0 then game_randomize RAND_MAX g (cfg_density c) r
    else
      match snd found with
      | Some pt =>
          let! g1 := game_clear g in
          let! x := int_div (cfg_grid_w c) 4 in
          let! y := int_div (cfg_grid_h c) 4 in
          let! g2 := pattern_load g1 pt x y in
          Ret (g2, r)
      | None => Undef
      end.

(** *** What [renderer_draw] is expected to draw *)

(** The window is [width * cell_size] by [height * cell_size] pixels, as
    [renderer_create] computes it, and that fits an [int]. *)
Definition renderer_fits (r : Renderer) (g : Game) : Prop :=
  1 <= cell_size r /\ 0 <= width g /\ 0 <= height g /\
  width g * cell_size r <= INT_MAX /\ height g * cell_size r <= INT_MAX.

(** The square of cell [(x, y)]. *)
Definition cell_rect (cs x y : Z) : DrawCmd :=
  SDL_RenderFillRect (x * cs) (y * cs) (cs - 1) (cs - 1).

(** The squares of the live cells, row by row. *)
Definition live_rects (cs : Z) (g : Game) : list DrawCmd :=
  flat_map (fun y =>
    flat_map (fun x => if alive_at g x y then [cell_rect cs x y] else [])
      (range (width g))) (range (height g)).

(** The grid lines, drawn for cells of 4 pixels and more. *)
Definition grid_lines (cs : Z) (g : Game) : list DrawCmd :=
  if cs >=? 4 then
    SDL_SetRenderDrawColor 40 40 40 255
    :: List.map (fun x => SDL_RenderDrawLine (x * cs) 0 (x * cs) (height g * cs))
         (range (width g + 1))
    ++ List.map (fun y => SDL_RenderDrawLine 0 (y * cs) (width g * cs) (y * cs))
         (range (height g + 1))
  else [].

(** The number a string of decimal digits stands for, read from the left
    with [acc] read so far. *)
Fixpoint digits_value (acc : Z) (s : string) : Z :=
  match s with
  | EmptyString => acc
  | String c s' => digits_value (acc * 10 + (Z.of_N (N_of_ascii c) - 48)) s'
  end.

(** *** The main loop *)

(** What the main loop keeps true of its variables, with [left] frames
    still to come and at most [bound] frames in all: a grid of the data
    model, a target FPS from 1 to 61 with the frame delay computed from it,
    and a generation count that the remaining frames cannot overflow. *)
Definition loop_ok (bound : Z) (left : nat) (st : Loop) : Prop :=
  grid_inv (game st) /\
  1 <= target_fps st <= 61 /\
  frame_delay st = Z.quot 1000 (target_fps st) /\
  0 <= generation st /\ generation st + Z.of_nat left <= bound /\ bound <= INT_MAX.

(** Events that neither end the loop, nor pause it, nor refill the grid. *)
Definition quiet (ev : Event) : bool :=
  match ev with
  | SDL_QUIT | SDL_KEYDOWN SDLK_ESCAPE | SDL_KEYDOWN SDLK_SPACE | SDL_KEYDOWN SDLK_r => false
  | _ => true
  end.

(** Events that end the loop. *)
Definition quits (ev : Event) : bool :=
  match ev with
  | SDL_QUIT | SDL_KEYDOWN SDLK_ESCAPE => true
  | _ => false
  end.

(** *** The generation as the buffer holds it *)

(** What the current buffer holds for cell [(x, y)]: the entry at index
    [y * width + x] for a cell of the grid, and 0 beyond the border.  It is
    read off [cells], not through [game_get_cell]. *)
Definition stored (g : Game) (x y : Z) : Z :=
  if (0 <=? x) && (x <? width g) && (0 <=? y) && (y <? height g)
  then default 0 (cells g !! Z.to_nat (y * width g + x))
  else 0.

(** The buffer holds a live cell at [(x, y)]. *)
Definition stored_alive (g : Game) (x y : Z) : bool := negb (stored g x y =? 0).

(** How many of the eight neighbours of [(x, y)] the buffer holds alive. *)
Definition stored_neighbours (g : Game) (x y : Z) : Z :=
  Z.of_nat (length (List.filter (fun d => stored_alive g (x + fst d) (y + snd d))
                      moore_offsets)).

(** The events of a frame handled one after the other, each by
    [handle_event], from the first to the last. *)
Inductive handled (RAND_MAX : Z) (density : float) : list Event -> Loop -> Loop -> Prop :=
| handled_nil (st : Loop) : handled RAND_MAX density [] st st
| handled_cons (ev : Event) (evs : list Event) (st st1 st2 : Loop) :
    handle_event RAND_MAX density ev st = Ret st1 ->
    handled RAND_MAX density evs st1 st2 ->
    handled RAND_MAX density (ev :: evs) st st2.

(** A 3 x 3 grid holding a horizontal blinker in its middle row. *)
Definition blinker_3x3 : Game :=
  {| width := 3; height := 3;
     cells := [0; 0; 0; 1; 1; 1; 0; 0; 0];
     next := [0; 0; 0; 0; 0; 0; 0; 0; 0] |}.

(** ** Basic facts *)

Lemma bind_ret {A B : Type} (m : outcome A) (k : A -> outcome B) (b : B) :
  bind m k = Ret b -> exists a, m = Ret a /\ k a = Ret b.
Proof. destruct m as [a|]; simpl; [eauto | discriminate]. Qed.

Lemma int_of_ok z : INT_MIN <= z <= INT_MAX -> int_of z = Ret z.
Proof.
  intros H. unfold int_of, int_ok.
  destruct (Z.leb_spec INT_MIN z), (Z.leb_spec z INT_MAX); simpl; auto; lia.
Qed.

Lemma int_of_ret z v : int_of z = Ret v -> v = z /\ INT_MIN <= z <= INT_MAX.
Proof.
  unfold int_of, int_ok.
  destruct (Z.leb_spec INT_MIN z), (Z.leb_spec z INT_MAX); simpl; try discriminate.
  intros [= <-]. lia.
Qed.

Lemma outside_true g x y :
  outside g x y = true <-> (x < 0 \/ x >= width g \/ y < 0 \/ y >= height g).
Proof.
  unfold outside. rewrite !orb_true_iff, !Z.ltb_lt, !Z.geb_le. lia.
Qed.

Lemma outside_false g x y : outside g x y = false <-> in_grid g x y.
Proof.
  unfold in_grid. destruct (outside g x y) eqn:E.
  - apply outside_true in E. split; [discriminate | lia].
  - split; [intros _ | reflexivity].
    assert (~ (x < 0 \/ x >= width g \/ y < 0 \/ y >= height g)) as N
      by (rewrite <- outside_true, E; discriminate).
    lia.
Qed.

Lemma strcmp_refl a : strcmp a a = 0.
Proof. induction a as [|c a IH]; simpl; [reflexivity|]. now rewrite Ascii.eqb_refl. Qed.

Lemma strcmp_zero a : forall b, strcmp a b = 0 -> a = b.
Proof.
  induction a as [|c a IH]; intros [|d b]; simpl; try discriminate; auto.
  destruct (Ascii.eqb_spec c d) as [->|N].
  - intros H. f_equal. now apply IH.
  - destruct (N_of_ascii c <? N_of_ascii d)%N; discriminate.
Qed.

Lemma strcmp_other a b : a <> b -> (strcmp a b =? 0) = false.
Proof.
  intros N. apply Z.eqb_neq. intros H. now apply N, strcmp_zero.
Qed.

(** ** [game_get_cell] and [game_set_cell] outside the grid *)

(** C3. For every grid and every coordinate outside of it, [game_get_cell]
    returns 0 (dead). *)
Theorem get_cell_outside_dead (g : Game) (x y : Z) :
  x < 0 \/ x >= width g \/ y < 0 \/ y >= height g ->
  game_get_cell g x y = Ret 0.
Proof.
  intros H. unfold game_get_cell. apply outside_true in H. now rewrite H.
Qed.

Lemma get_cell_outside_dead_witness : game_get_cell sample_grid 3 0 = Ret 0.
Proof. apply (get_cell_outside_dead sample_grid 3 0). simpl. lia. Defined.

(** C5. For every grid, every coordinate outside of it and every value of
    [alive], [game_set_cell] returns normally with the very same grid, so
    every cell reads as before. *)
Theorem set_cell_outside_noop (g : Game) (x y alive : Z) :
  x < 0 \/ x >= width g \/ y < 0 \/ y >= height g ->
  game_set_cell g x y alive = Ret g /\
  forall g', game_set_cell g x y alive = Ret g' ->
    forall x' y', game_get_cell g' x' y' = game_get_cell g x' y'.
Proof.
  intros H. apply outside_true in H.
  assert (game_set_cell g x y alive = Ret g) as E
    by (unfold game_set_cell; now rewrite H).
  split; [exact E|]. intros g' E'. rewrite E in E'. now injection E' as <-.
Qed.

Lemma set_cell_outside_noop_witness :
  game_set_cell sample_grid 1 (-1) 1 = Ret sample_grid /\
  forall g', game_set_cell sample_grid 1 (-1) 1 = Ret g' ->
    forall x' y', game_get_cell g' x' y' = game_get_cell sample_grid x' y'.
Proof. apply (set_cell_outside_noop sample_grid 1 (-1) 1). simpl. lia. Defined.

(** ** [pattern_from_name] *)

Lemma pattern_from_name_unknown (name : string) (out : option PatternType) :
  ~ In name recognized_names -> pattern_from_name name out = (0, out).
Proof.
  intros N. unfold pattern_from_name.
  rewrite !strcmp_other; [reflexivity | ..];
    intros ->; apply N; simpl; tauto.
Qed.

Lemma pattern_from_name_found (name : string) (out : option PatternType) :
  In name recognized_names -> fst (pattern_from_name name out) = 1.
Proof.
  simpl. intros [<-|[<-|[<-|[<-|[<-|[<-|[<-|[]]]]]]]]; reflexivity.
Qed.

(** C6. Both ["gosper"] and ["gosper_gun"] are found and give
    [PATTERN_GOSPER_GUN]; a name outside the recognized ones, such as
    ["nonexistent"], is reported as not found (result 0). *)
Theorem pattern_from_name_aliases :
  (forall out, pattern_from_name "gosper" out = (1, Some PATTERN_GOSPER_GUN)) /\
  (forall out, pattern_from_name "gosper_gun" out = (1, Some PATTERN_GOSPER_GUN)) /\
  (forall name out, ~ In name recognized_names -> fst (pattern_from_name name out) = 0).
Proof.
  repeat split; try reflexivity.
  intros name out N. now rewrite pattern_from_name_unknown.
Qed.

Lemma pattern_from_name_aliases_witness :
  fst (pattern_from_name "nonexistent" None) = 0.
Proof.
  apply (proj2 (proj2 pattern_from_name_aliases) "nonexistent"%string None).
  simpl. intros H. repeat (destruct H as [H|H]; [discriminate H|]). exact H.
Defined.

(** C10. When [pattern_from_name] returns 0, the object behind [out] holds
    what it held before the call. *)
Theorem pattern_from_name_not_found_keeps_out (name : string) (out : option PatternType) :
  fst (pattern_from_name name out) = 0 ->
  snd (pattern_from_name name out) = out.
Proof.
  unfold pattern_from_name.
  repeat match goal with
         | |- context [if ?c then _ else _] => destruct c; [simpl; discriminate|]
         end.
  reflexivity.
Qed.

Lemma pattern_from_name_not_found_keeps_out_witness :
  snd (pattern_from_name "nonexistent" (Some PATTERN_TOAD)) = Some PATTERN_TOAD.
Proof.
  apply (pattern_from_name_not_found_keeps_out "nonexistent" (Some PATTERN_TOAD)).
  reflexivity.
Defined.

(** ** [game_create] *)

Lemma to_size_t_nonneg z : 0 <= z <= INT_MAX -> to_size_t z = z.
Proof.
  intros H. unfold to_size_t. apply Z.mod_small.
  unfold INT_MAX, SIZE_MOD in *. lia.
Qed.

Lemma to_size_t_neg z : INT_MIN <= z < 0 -> to_size_t z = z + SIZE_MOD.
Proof.
  intros H. unfold to_size_t.
  rewrite <- (Z.mod_add z 1 SIZE_MOD) by (unfold SIZE_MOD; lia).
  apply Z.mod_small. unfold INT_MIN, SIZE_MOD in *. lia.
Qed.

Lemma calloc_negative grant z :
  INT_MIN <= z < 0 -> calloc grant (to_size_t z) sizeof_int = None.
Proof.
  intros H. unfold calloc. rewrite to_size_t_neg by lia.
  replace ((z + SIZE_MOD) * sizeof_int <? SIZE_MOD) with false; [reflexivity|].
  symmetry. apply Z.ltb_ge. unfold INT_MIN, SIZE_MOD, sizeof_int in *. lia.
Qed.

Lemma calloc_nonnegative grant z :
  0 <= z <= INT_MAX ->
  calloc grant (to_size_t z) sizeof_int
  = if grant then Some (replicate (Z.to_nat z) 0) else None.
Proof.
  intros H. unfold calloc. rewrite to_size_t_nonneg by lia.
  replace (z * sizeof_int <? SIZE_MOD) with true; [reflexivity|].
  symmetry. apply Z.ltb_lt. unfold INT_MAX, SIZE_MOD, sizeof_int in *. lia.
Qed.

(** C2, as stated, fails: with both dimensions negative the product is
    positive, nothing rejects the dimensions, and a [Game] is returned. *)
Lemma game_create_negative_dims_granted :
  (-1 <= 0 \/ -1 <= 0) /\
  game_create granting (-1) (-1)
  = Ret (Some {| width := -1; height := -1; cells := [0]; next := [0] |}).
Proof. split; [lia | reflexivity]. Qed.

(** C2, amended. When [width * height] fits an [int], [game_create] returns
    [NULL] exactly when an allocation fails: [malloc] of the struct, or one
    of the two [calloc] calls, and these always fail for a negative product,
    whose byte count does not fit [size_t].  The dimensions themselves are
    not examined. *)
Theorem game_create_fails_iff (a : Allocator) (w h : Z) :
  INT_MIN <= w * h <= INT_MAX ->
  (game_create a w h = Ret None <->
     malloc_game a = false \/ w * h < 0 \/
     calloc_cells a (to_size_t (w * h)) = false \/
     calloc_next a (to_size_t (w * h)) = false) /\
  (game_create a w h <> Ret None ->
     game_create a w h
     = Ret (Some {| width := w; height := h;
                    cells := replicate (Z.to_nat (w * h)) 0;
                    next := replicate (Z.to_nat (w * h)) 0 |})).
Proof.
  intros Hint. unfold game_create, int_mul. rewrite (int_of_ok _ Hint). simpl.
  destruct (malloc_game a); simpl; [|split; [tauto | congruence]].
  destruct (Z.neg_nonneg_cases (w * h)) as [Hneg|Hpos].
  - rewrite !calloc_negative by lia. split; [tauto | congruence].
  - rewrite !calloc_nonnegative by lia.
    rewrite !to_size_t_nonneg by lia.
    destruct (calloc_cells a (w * h)), (calloc_next a (w * h));
      (split; [split; [try discriminate; auto | intros [?|[?|[?|?]]]; try discriminate; try lia; auto] | congruence]).
Qed.

Lemma game_create_fails_iff_witness :
  (game_create granting (-1) 5 = Ret None <->
     malloc_game granting = false \/ -1 * 5 < 0 \/
     calloc_cells granting (to_size_t (-1 * 5)) = false \/
     calloc_next granting (to_size_t (-1 * 5)) = false) /\
  (game_create granting (-1) 5 <> Ret None ->
     game_create granting (-1) 5
     = Ret (Some {| width := -1; height := 5;
                    cells := replicate (Z.to_nat (-1 * 5)) 0;
                    next := replicate (Z.to_nat (-1 * 5)) 0 |})).
Proof. apply (game_create_fails_iff granting (-1) 5). unfold INT_MIN, INT_MAX. lia. Defined.

(** ** Cells of a well-formed grid *)

Lemma index_bounds (g : Game) (x y : Z) :
  grid_wf g -> in_grid g x y ->
  0 <= y * width g <= INT_MAX /\ 0 <= y * width g + x < width g * height g.
Proof.
  intros [Hs _ _] [Hx Hy]. nia.
Qed.

Lemma dims_bounds (g : Game) (x y : Z) :
  grid_wf g -> in_grid g x y -> width g <= INT_MAX /\ height g <= INT_MAX.
Proof.
  intros [Hs _ _] [Hx Hy]. nia.
Qed.

Lemma index_inj (w x y x' y' : Z) :
  0 <= x < w -> 0 <= x' < w -> y * w + x = y' * w + x' -> x = x' /\ y = y'.
Proof.
  intros Hx Hx' E.
  assert (y = y') as -> by nia. lia.
Qed.

Lemma cell_index_in_grid (g : Game) (x y : Z) :
  grid_wf g -> in_grid g x y -> cell_index g x y = Ret (y * width g + x).
Proof.
  intros Hwf Hin. destruct (index_bounds g x y Hwf Hin) as [Hr Hi].
  destruct Hwf as [Hs _ _].
  unfold cell_index, int_mul, int_add.
  rewrite int_of_ok by (unfold INT_MIN; lia). simpl.
  apply int_of_ok. unfold INT_MIN. lia.
Qed.

Lemma load_in_bounds (buf : list Z) (i : Z) :
  0 <= i < Z.of_nat (length buf) ->
  exists v, buf !! Z.to_nat i = Some v /\ load buf i = Ret v.
Proof.
  intros H. destruct (lookup_lt_is_Some_2 buf (Z.to_nat i)) as [v Hv]; [lia|].
  exists v. split; [exact Hv|]. unfold load.
  destruct (Z.leb_spec 0 i); [|lia]. now rewrite Hv.
Qed.

Lemma store_in_bounds (buf : list Z) (i v : Z) :
  0 <= i < Z.of_nat (length buf) -> store buf i v = Ret (<[Z.to_nat i := v]> buf).
Proof.
  intros H. unfold store.
  destruct (Z.leb_spec 0 i), (Z.ltb_spec i (Z.of_nat (length buf))); simpl; auto; lia.
Qed.

Lemma get_cell_in_grid (g : Game) (x y : Z) :
  grid_wf g -> in_grid g x y ->
  exists v, cells g !! Z.to_nat (y * width g + x) = Some v /\ game_get_cell g x y = Ret v.
Proof.
  intros Hwf Hin. unfold game_get_cell.
  rewrite (proj2 (outside_false g x y) Hin), (cell_index_in_grid g x y Hwf Hin). simpl.
  apply load_in_bounds. rewrite (wf_cells g Hwf).
  apply (index_bounds g x y Hwf Hin).
Qed.

Lemma get_cell_binary (g : Game) (x y : Z) :
  grid_wf g -> Forall binary (cells g) ->
  game_get_cell g x y = Ret (b2z (alive_at g x y)).
Proof.
  intros Hwf Hb. unfold alive_at.
  destruct (outside g x y) eqn:E.
  - unfold game_get_cell. now rewrite E.
  - apply outside_false in E.
    destruct (get_cell_in_grid g x y Hwf E) as (v & Hv & ->).
    rewrite Forall_lookup in Hb. destruct (Hb _ _ Hv) as [->| ->]; reflexivity.
Qed.

Lemma b2z_range (b : bool) : 0 <= b2z b <= 1.
Proof. destruct b; simpl; lia. Qed.

(** ** [count_neighbors] counts the live neighbours *)

Lemma count_one_value (g : Game) (x y dy dx count : Z) :
  grid_wf g -> Forall binary (cells g) ->
  INT_MIN <= x + dx <= INT_MAX -> INT_MIN <= y + dy <= INT_MAX ->
  0 <= count < INT_MAX ->
  count_one g x y dy dx count
  = Ret (if (dx =? 0) && (dy =? 0) then count
         else count + b2z (alive_at g (x + dx) (y + dy))).
Proof.
  intros Hwf Hb Hx Hy Hc. unfold count_one.
  destruct ((dx =? 0) && (dy =? 0)); [reflexivity|].
  unfold int_add at 1 2. rewrite !int_of_ok by assumption. simpl.
  rewrite (get_cell_binary g _ _ Hwf Hb). simpl.
  apply int_of_ok. pose proof (b2z_range (alive_at g (x + dx) (y + dy))).
  unfold INT_MIN in *. lia.
Qed.

Lemma filter_count {A : Type} (f : A -> bool) (l : list A) :
  Z.of_nat (length (List.filter f l)) = fold_right (fun d acc => b2z (f d) + acc) 0 l.
Proof.
  induction l as [|d l IH]; simpl; [reflexivity|].
  destruct (f d); simpl; lia.
Qed.

Lemma count_neighbors_live_count (g : Game) (x y : Z) :
  grid_wf g -> Forall binary (cells g) ->
  INT_MIN < x < INT_MAX -> INT_MIN < y < INT_MAX ->
  count_neighbors g x y = Ret (live_count g x y).
Proof.
  intros Hwf Hb Hx Hy. unfold count_neighbors, live_count.
  rewrite filter_count. cbn [for_loop fold_right moore_offsets fst snd].
  pose proof (b2z_range (alive_at g (x + -1) (y + -1))).
  pose proof (b2z_range (alive_at g (x + 0) (y + -1))).
  pose proof (b2z_range (alive_at g (x + 1) (y + -1))).
  pose proof (b2z_range (alive_at g (x + -1) (y + 0))).
  pose proof (b2z_range (alive_at g (x + 1) (y + 0))).
  pose proof (b2z_range (alive_at g (x + -1) (y + 1))).
  pose proof (b2z_range (alive_at g (x + 0) (y + 1))).
  pose proof (b2z_range (alive_at g (x + 1) (y + 1))).
  replace (-1 + 1) with 0 by reflexivity. replace (0 + 1) with 1 by reflexivity.
  repeat (rewrite (count_one_value g x y _ _ _ Hwf Hb) by (unfold INT_MIN, INT_MAX in *; lia);
          cbn [bind Z.eqb andb]).
  f_equal. lia.
Qed.

(** ** Loops *)

Lemma for_loop_inv {S : Type} (P : Z -> S -> Prop) (body : Z -> S -> outcome S) :
  forall (n : nat) (lo : Z) (s : S),
    P lo s ->
    (forall i t, lo <= i < lo + Z.of_nat n -> P i t ->
                 exists t', body i t = Ret t' /\ P (i + 1) t') ->
    exists t, for_loop lo n body s = Ret t /\ P (lo + Z.of_nat n) t.
Proof.
  induction n as [|n IH]; intros lo s H0 Hstep.
  - exists s. split; [reflexivity|]. now replace (lo + Z.of_nat 0) with lo by lia.
  - destruct (Hstep lo s ltac:(lia) H0) as (s1 & E1 & H1).
    destruct (IH (lo + 1) s1 H1) as (t & Et & Ht).
    + intros i u Hi. apply Hstep. lia.
    + exists t. cbn [for_loop]. rewrite E1. cbn [bind]. split; [exact Et|].
      now replace (lo + Z.of_nat (Datatypes.S n)) with (lo + 1 + Z.of_nat n) by lia.
Qed.

(** A property kept by every iteration holds of every result. *)
Lemma for_loop_preserves {S : Type} (P : S -> Prop) (body : Z -> S -> outcome S) :
  (forall i t t', P t -> body i t = Ret t' -> P t') ->
  forall (n : nat) (lo : Z) (s t : S),
    P s -> for_loop lo n body s = Ret t -> P t.
Proof.
  intros Hbody. induction n as [|n IH]; intros lo s t Hs E; cbn [for_loop] in E.
  - now injection E as <-.
  - apply bind_ret in E as (s1 & E1 & E2). eauto.
Qed.

(** ** [game_step] *)

Lemma step_cell_value (g : Game) (x y : Z) :
  grid_wf g -> Forall binary (cells g) -> in_grid g x y ->
  step_cell y x g
  = Ret (with_next g (<[Z.to_nat (y * width g + x) := next_value g x y]> (next g))).
Proof.
  intros Hwf Hb Hin. unfold step_cell.
  destruct (dims_bounds g x y Hwf Hin) as [Hw Hh].
  destruct (index_bounds g x y Hwf Hin) as [_ Hi].
  rewrite count_neighbors_live_count; try assumption;
    try (destruct Hin; unfold INT_MIN, INT_MAX in *; lia).
  rewrite (cell_index_in_grid g x y Hwf Hin). cbn [bind].
  destruct (get_cell_in_grid g x y Hwf Hin) as (v & Hv & Hget).
  destruct (load_in_bounds (cells g) (y * width g + x)) as (v' & Hv' & ->);
    [rewrite (wf_cells g Hwf); exact Hi|].
  rewrite Hv in Hv'. injection Hv' as <-. cbn [bind].
  rewrite store_in_bounds by (rewrite (wf_next g Hwf); exact Hi). cbn [bind].
  do 3 f_equal. unfold next_value, alive_at, conway. rewrite Hget.
  destruct (v =? 0), (live_count g x y =? 2), (live_count g x y =? 3); reflexivity.
Qed.

Lemma step_cell_keeps_cells (x y : Z) (q q' : Game) :
  step_cell y x q = Ret q' ->
  cells q' = cells q /\ width q' = width q /\ height q' = height q.
Proof.
  unfold step_cell. intros E.
  apply bind_ret in E as (n & _ & E). apply bind_ret in E as (i & _ & E).
  apply bind_ret in E as (a & _ & E). apply bind_ret in E as (nx & _ & E).
  injection E as <-. auto.
Qed.

Lemma pass_state_step (g : Game) (done : Z -> Z -> Prop) (q : Game) (x y : Z) :
  grid_wf g -> Forall binary (cells g) -> in_grid g x y ->
  pass_state g done q ->
  exists q', step_cell y x q = Ret q' /\
             pass_state g (fun x' y' => done x' y' \/ (x' = x /\ y' = y)) q'.
Proof.
  intros Hwf Hb Hin (Hq & Hlen & Hdone).
  assert (grid_wf q) as Hwfq.
  { rewrite Hq. destruct Hwf as [Hs Hc Hn]. split; cbn; auto. now rewrite Hlen. }
  assert (in_grid q x y) as Hinq by (rewrite Hq; exact Hin).
  assert (Forall binary (cells q)) as Hbq by (rewrite Hq; exact Hb).
  eexists. split; [apply (step_cell_value q x y Hwfq Hbq Hinq)|].
  assert (width q = width g) as Ew by (rewrite Hq; reflexivity).
  assert (next_value q x y = next_value g x y) as Ev by (rewrite Hq; reflexivity).
  rewrite Ew, Ev.
  destruct (index_bounds g x y Hwf Hin) as [_ Hi].
  split; [|split]; cbn [next with_next].
  - rewrite Hq at 1. reflexivity.
  - now rewrite length_insert.
  - intros x' y' Hin' [Hd|[-> ->]].
    + destruct (Z.eq_dec (y * width g + x) (y' * width g + x')) as [E|N].
      * destruct Hin, Hin'. apply index_inj in E as [-> ->]; try lia.
        rewrite list_lookup_insert_eq; [reflexivity|].
        rewrite Hlen. pose proof (wf_next g Hwf). lia.
      * destruct (index_bounds g x' y' Hwf Hin') as [_ Hi'].
        rewrite list_lookup_insert_ne by lia. now apply Hdone.
    + rewrite list_lookup_insert_eq; [reflexivity|].
      rewrite Hlen. pose proof (wf_next g Hwf). lia.
Qed.

Lemma pass_state_weaken (g : Game) (d1 d2 : Z -> Z -> Prop) (q : Game) :
  (forall x y, in_grid g x y -> d2 x y -> d1 x y) ->
  pass_state g d1 q -> pass_state g d2 q.
Proof.
  intros H (Hq & Hlen & Hd). repeat split; auto.
Qed.

Lemma step_pass_result (g : Game) :
  grid_wf g -> Forall binary (cells g) ->
  exists q, step_pass g = Ret q /\ pass_state g (fun _ _ => True) q.
Proof.
  intros Hwf Hb. unfold step_pass.
  destruct (for_loop_inv
              (fun y q => pass_state g (fun _ y' => y' < y) q)
              (fun y g1 => for_loop 0 (Z.to_nat (width g1)) (step_cell y) g1)
              (Z.to_nat (height g)) 0 g) as (q & Eq & Hq).
  - repeat split; [now destruct g|]. intros x y [_ Hy] Hlt. lia.
  - intros y q Hy Hrow.
    assert (width q = width g) as Ew by (destruct Hrow as (-> & _); reflexivity).
    rewrite Ew.
    destruct (for_loop_inv
                (fun x q1 => pass_state g (fun x' y' => y' < y \/ (y' = y /\ x' < x)) q1)
                (step_cell y) (Z.to_nat (width g)) 0 q) as (q1 & Eq1 & Hq1).
    + eapply pass_state_weaken; [|exact Hrow]. unfold in_grid. cbn. intros; lia.
    + intros x q1 Hx Hcol.
      assert (in_grid g x y) as Hin by (unfold in_grid; lia).
      destruct (pass_state_step g _ q1 x y Hwf Hb Hin Hcol) as (q2 & E2 & H2).
      exists q2. split; [exact E2|].
      eapply pass_state_weaken; [|exact H2]. unfold in_grid. cbn. intros; lia.
    + exists q1. split; [exact Eq1|].
      eapply pass_state_weaken; [|exact Hq1]. cbn.
      intros x' y' [Hx' Hy'] Hlt. lia.
  - exists q. split; [exact Eq|].
    eapply pass_state_weaken; [|exact Hq]. cbn. intros x y [_ Hy'] _. lia.
Qed.

Lemma alive_at_stored (g : Game) (x y : Z) :
  grid_wf g -> alive_at g x y = stored_alive g x y.
Proof.
  intros Hwf. unfold alive_at, stored_alive, stored.
  destruct (outside g x y) eqn:Ho.
  - unfold game_get_cell. rewrite Ho. apply outside_true in Ho.
    destruct (Z.leb_spec 0 x), (Z.ltb_spec x (width g)), (Z.leb_spec 0 y),
      (Z.ltb_spec y (height g)); cbn; try reflexivity; lia.
  - apply outside_false in Ho.
    destruct (get_cell_in_grid g x y Hwf Ho) as (v & Hv & ->). rewrite Hv.
    destruct Ho as [Hx Hy].
    destruct (Z.leb_spec 0 x), (Z.ltb_spec x (width g)), (Z.leb_spec 0 y),
      (Z.ltb_spec y (height g)); cbn; try reflexivity; lia.
Qed.

Lemma live_count_stored (g : Game) (x y : Z) :
  grid_wf g -> live_count g x y = stored_neighbours g x y.
Proof.
  intros Hwf. unfold live_count, stored_neighbours. do 2 f_equal.
  apply filter_ext. intros d. now apply alive_at_stored.
Qed.

(** C1. On every grid (both buffers of [width * height] cells, current cells
    0 or 1), [game_step] returns a grid whose current buffer holds, at the
    index of each in-range cell [(x, y)], what Conway's rule gives from the
    buffer before the call: a cell stored alive stays alive iff 2 or 3 of
    its eight neighbours are stored alive, a cell stored dead becomes alive
    iff exactly 3 are, neighbours outside the grid counting as dead.  No
    iteration of the pass writes the current buffer, which is found
    unchanged as [next] after the swap.  Read through [game_get_cell] the
    result says the same. *)
Theorem game_step_synchronous (g : Game) :
  grid_wf g -> Forall binary (cells g) ->
  (forall x y q q', step_cell y x q = Ret q' -> cells q' = cells q) /\
  exists g', game_step g = Ret g' /\
             next g' = cells g /\ width g' = width g /\ height g' = height g /\
             forall x y, in_grid g x y ->
               cells g' !! Z.to_nat (y * width g + x)
               = Some (b2z (conway (stored_alive g x y) (stored_neighbours g x y))) /\
               game_get_cell g' x y = Ret (b2z (conway (alive_at g x y) (live_count g x y))) /\
               alive_at g' x y = conway (alive_at g x y) (live_count g x y).
Proof.
  intros Hwf Hb. split.
  - intros x y q q' E. now apply step_cell_keeps_cells in E.
  - destruct (step_pass_result g Hwf Hb) as (q & Eq & Hq & Hlen & Hdone).
    exists (swap_buffers q). unfold game_step. rewrite Eq. cbn [bind].
    split; [reflexivity|]. split; [rewrite Hq; reflexivity|].
    split; [rewrite Hq; reflexivity|]. split; [rewrite Hq; reflexivity|].
    intros x y Hin.
    assert (cells (swap_buffers q) !! Z.to_nat (y * width g + x)
            = Some (next_value g x y)) as Hcell
      by (cbn [cells swap_buffers]; exact (Hdone x y Hin I)).
    assert (game_get_cell (swap_buffers q) x y = Ret (next_value g x y)) as E.
    { assert (grid_wf (swap_buffers q)) as Hwf'.
      { rewrite Hq. destruct Hwf as [Hs Hc Hn]. split; cbn; auto. lia. }
      assert (in_grid (swap_buffers q) x y) as Hin' by (rewrite Hq; exact Hin).
      destruct (get_cell_in_grid _ x y Hwf' Hin') as (v & Hv & ->).
      replace (width (swap_buffers q)) with (width g) in Hv by (rewrite Hq; reflexivity).
      rewrite Hcell in Hv. now injection Hv as <-. }
    split; [|split].
    + rewrite Hcell. unfold next_value.
      now rewrite (alive_at_stored g x y Hwf), (live_count_stored g x y Hwf).
    + exact E.
    + unfold alive_at at 1. rewrite E. unfold next_value.
      now destruct (conway (alive_at g x y) (live_count g x y)).
Qed.

Lemma game_step_synchronous_witness :
  (forall x y q q', step_cell y x q = Ret q' -> cells q' = cells q) /\
  exists g', game_step blinker_3x3 = Ret g' /\
             next g' = cells blinker_3x3 /\ width g' = width blinker_3x3 /\
             height g' = height blinker_3x3 /\
             forall x y, in_grid blinker_3x3 x y ->
               cells g' !! Z.to_nat (y * width blinker_3x3 + x)
               = Some (b2z (conway (stored_alive blinker_3x3 x y)
                              (stored_neighbours blinker_3x3 x y))) /\
               game_get_cell g' x y
               = Ret (b2z (conway (alive_at blinker_3x3 x y) (live_count blinker_3x3 x y))) /\
               alive_at g' x y = conway (alive_at blinker_3x3 x y) (live_count blinker_3x3 x y).
Proof.
  apply (game_step_synchronous blinker_3x3).
  - split; cbn; unfold INT_MAX; lia.
  - repeat (constructor; [unfold binary; lia|]). constructor.
Defined.

(** On that grid the step turns the blinker: the middle column is alive
    afterwards, by the values the statement of C1 gives. *)
Example blinker_3x3_step :
  game_step blinker_3x3
  = Ret {| width := 3; height := 3;
           cells := [0; 1; 0; 0; 1; 0; 0; 1; 0];
           next := [0; 0; 0; 1; 1; 1; 0; 0; 0] |} /\
  List.map (fun i => b2z (conway (stored_alive blinker_3x3 (i mod 3) (i / 3))
                            (stored_neighbours blinker_3x3 (i mod 3) (i / 3))))
    (range 9)
  = [0; 1; 0; 0; 1; 0; 0; 1; 0].
Proof. split; reflexivity. Qed.

(** ** The blinker *)

Lemma range_spec (n x : Z) : In x (range n) <-> 0 <= x < n.
Proof.
  unfold range. rewrite in_map_iff. split.
  - intros (k & <- & Hk). apply in_seq in Hk. lia.
  - intros H. exists (Z.to_nat x). split; [lia|]. apply in_seq. lia.
Qed.

Lemma alive_exactly_spec (g : Game) (l : list (Z * Z)) :
  alive_exactly g l = true ->
  forall x y, game_get_cell g x y = Ret (b2z (coord_in l x y)).
Proof.
  unfold alive_exactly. rewrite andb_true_iff. intros [Hin Hl] x y.
  destruct (outside g x y) eqn:E.
  - unfold game_get_cell. rewrite E.
    destruct (coord_in l x y) eqn:C; [|reflexivity]. exfalso.
    unfold coord_in in C. apply existsb_exists in C as ([cx cy] & Hc & Hxy).
    rewrite forallb_forall in Hl. specialize (Hl _ Hc). cbn in Hl, Hxy.
    apply andb_true_iff in Hxy as [Hx Hy].
    apply Z.eqb_eq in Hx, Hy. subst. rewrite E in Hl. discriminate.
  - apply outside_false in E as [Hx Hy].
    rewrite forallb_forall in Hin. specialize (Hin y (proj2 (range_spec _ _) Hy)).
    rewrite forallb_forall in Hin. specialize (Hin x (proj2 (range_spec _ _) Hx)).
    destruct (game_get_cell g x y) as [v|]; [|discriminate].
    apply Z.eqb_eq in Hin. now subst.
Qed.

Lemma game_create_grid (a : Allocator) (w h : Z) (g : Game) :
  game_create a w h = Ret (Some g) ->
  0 <= w * h <= INT_MAX /\
  g = {| width := w; height := h;
         cells := replicate (Z.to_nat (w * h)) 0;
         next := replicate (Z.to_nat (w * h)) 0 |}.
Proof.
  unfold game_create. destruct (malloc_game a); cbn [negb]; [|discriminate].
  intros E. apply bind_ret in E as (size & Hsize & E).
  apply int_of_ret in Hsize as [-> Hint].
  destruct (Z.neg_nonneg_cases (w * h)) as [Hneg|Hpos].
  - rewrite !calloc_negative in E by lia. discriminate.
  - rewrite !calloc_nonnegative in E by lia.
    rewrite !to_size_t_nonneg in E by lia.
    destruct (calloc_cells a (w * h)), (calloc_next a (w * h)); try discriminate.
    injection E as <-. split; [lia | reflexivity].
Qed.

(** C4. On a freshly created 10 x 10 grid, placing the blinker at (3, 3)
    makes exactly (3,3), (4,3), (5,3) alive; one step later exactly (4,2),
    (4,3), (4,4) are alive; after a second step exactly (3,3), (4,3), (5,3)
    are alive again, and the current generation is the one before the two
    steps. *)
Theorem blinker_period_two (a : Allocator) (g : Game) :
  game_create a 10 10 = Ret (Some g) ->
  exists g1 g2 g3,
    pattern_load g PATTERN_BLINKER 3 3 = Ret g1 /\
    game_step g1 = Ret g2 /\
    game_step g2 = Ret g3 /\
    (forall x y, game_get_cell g1 x y = Ret (b2z (coord_in [(3,3); (4,3); (5,3)] x y))) /\
    (forall x y, game_get_cell g2 x y = Ret (b2z (coord_in [(4,2); (4,3); (4,4)] x y))) /\
    (forall x y, game_get_cell g3 x y = Ret (b2z (coord_in [(3,3); (4,3); (5,3)] x y))) /\
    cells g3 = cells g1 /\ width g3 = width g1 /\ height g3 = height g1.
Proof.
  intros E. apply game_create_grid in E as [_ ->].
  do 3 eexists.
  split; [vm_compute; reflexivity|].
  split; [vm_compute; reflexivity|].
  split; [vm_compute; reflexivity|].
  split; [apply alive_exactly_spec; vm_compute; reflexivity|].
  split; [apply alive_exactly_spec; vm_compute; reflexivity|].
  split; [apply alive_exactly_spec; vm_compute; reflexivity|].
  repeat split.
Qed.

Lemma blinker_period_two_witness :
  exists g1 g2 g3,
    pattern_load fresh_10x10 PATTERN_BLINKER 3 3 = Ret g1 /\
    game_step g1 = Ret g2 /\
    game_step g2 = Ret g3 /\
    (forall x y, game_get_cell g1 x y = Ret (b2z (coord_in [(3,3); (4,3); (5,3)] x y))) /\
    (forall x y, game_get_cell g2 x y = Ret (b2z (coord_in [(4,2); (4,3); (4,4)] x y))) /\
    (forall x y, game_get_cell g3 x y = Ret (b2z (coord_in [(3,3); (4,3); (5,3)] x y))) /\
    cells g3 = cells g1 /\ width g3 = width g1 /\ height g3 = height g1.
Proof. apply (blinker_period_two granting fresh_10x10). reflexivity. Defined.

(** ** Properties kept by every write of a cell *)

Lemma same_dims_write_closed (w h : Z) : write_closed (same_dims w h).
Proof. split; intros q i v _ H; exact H. Qed.

Lemma forall_binary_insert (buf : list Z) (i : nat) (v : Z) :
  binary v -> Forall binary buf -> Forall binary (<[i := v]> buf).
Proof.
  intros Hv Hb. destruct (Nat.lt_ge_cases i (length buf)).
  - now apply Forall_insert.
  - now rewrite list_insert_ge.
Qed.

Lemma grid_wf_write_closed : write_closed grid_wf.
Proof.
  split; intros t j v _ [Hs Hcl Hn]; split; cbn; rewrite ?length_insert; auto.
Qed.

Lemma grid_inv_write_closed : write_closed grid_inv.
Proof.
  split; intros q i v Hv ([Hs Hc Hn] & Hbc & Hbn); (split; [split|split]); cbn;
    rewrite ?length_insert; auto using forall_binary_insert.
Qed.

Lemma store_ret (buf buf' : list Z) (i v : Z) :
  store buf i v = Ret buf' -> buf' = <[Z.to_nat i := v]> buf.
Proof.
  unfold store. destruct ((0 <=? i) && (i <? Z.of_nat (length buf))); [|discriminate].
  now intros [= <-].
Qed.

Lemma set_cell_preserves (P : Game -> Prop) (g g' : Game) (x y alive : Z) :
  write_closed P -> game_set_cell g x y alive = Ret g' -> P g -> P g'.
Proof.
  intros [Hc _]. unfold game_set_cell. destruct (outside g x y).
  - now intros [= <-].
  - intros E Hg. apply bind_ret in E as (i & _ & E). apply bind_ret in E as (c & Hst & E).
    injection E as <-. apply store_ret in Hst as ->. apply Hc; [|exact Hg].
    unfold binary. destruct (alive =? 0); auto.
Qed.

Lemma step_cell_preserves (P : Game -> Prop) (x y : Z) (q q' : Game) :
  write_closed P -> step_cell y x q = Ret q' -> P q -> P q'.
Proof.
  intros [_ Hn]. unfold step_cell. intros E Hq.
  apply bind_ret in E as (n & _ & E). apply bind_ret in E as (i & _ & E).
  apply bind_ret in E as (a & _ & E). apply bind_ret in E as (nx & Hst & E).
  injection E as <-. apply store_ret in Hst as ->. apply Hn; [|exact Hq].
  unfold binary.
  destruct (a =? 0), (n =? 2), (n =? 3); cbn; auto.
Qed.

Lemma step_pass_preserves (P : Game -> Prop) (g q : Game) :
  write_closed P -> step_pass g = Ret q -> P g -> P q.
Proof.
  intros HP E Hg. unfold step_pass in E.
  eapply (for_loop_preserves P); [|exact Hg|exact E].
  intros y t t' Ht Et. cbn in Et.
  eapply (for_loop_preserves P); [|exact Ht|exact Et].
  intros x u u' Hu Eu. eapply step_cell_preserves; eauto.
Qed.

Lemma randomize_cell_preserves (R : Z) (P : Game -> Prop) (d : float) (x y : Z)
    (s s' : Game * Rng) :
  write_closed P -> randomize_cell R d y x s = Ret s' -> P (fst s) -> P (fst s').
Proof.
  intros [Hc _]. unfold randomize_cell. cbn [rand]. intros E Hs.
  apply bind_ret in E as (i & _ & E). apply bind_ret in E as (c & Hst & E).
  injection E as <-. apply store_ret in Hst as ->. cbn [fst]. apply Hc; [|exact Hs].
  unfold binary. destruct (float_lt _ d); auto.
Qed.

Lemma randomize_preserves (R : Z) (P : Game -> Prop) (g g' : Game) (d : float)
    (rng rng' : Rng) :
  write_closed P -> game_randomize R g d rng = Ret (g', rng') -> P g -> P g'.
Proof.
  intros HP E Hg. unfold game_randomize in E.
  change g' with (fst (g', rng')).
  eapply (for_loop_preserves (fun s => P (fst s))); [| |exact E]; [|exact Hg].
  intros y t t' Ht Et. cbn beta in Et.
  eapply (for_loop_preserves (fun s => P (fst s))); [|exact Ht|exact Et].
  intros x u u' Hu Eu. eapply randomize_cell_preserves; eauto.
Qed.

Lemma set_cells_preserves (P : Game -> Prop) (g g' : Game) (ox oy : Z)
    (coords : list (Z * Z)) (count : Z) :
  write_closed P -> set_cells g ox oy coords count = Ret g' -> P g -> P g'.
Proof.
  intros HP E Hg. unfold set_cells in E.
  eapply (for_loop_preserves P); [|exact Hg|exact E].
  intros i t t' Ht Et. cbn beta in Et.
  destruct (coords !! Z.to_nat i) as [[cx cy]|]; [|discriminate].
  apply bind_ret in Et as (x & _ & Et). apply bind_ret in Et as (y & _ & Et).
  eapply set_cell_preserves; eauto.
Qed.

Lemma pattern_load_preserves (P : Game -> Prop) (g g' : Game) (t : PatternType) (x y : Z) :
  write_closed P -> pattern_load g t x y = Ret g' -> P g -> P g'.
Proof.
  intros HP. destruct t; cbn; apply set_cells_preserves; exact HP.
Qed.

(** ** [game_clear] *)

Lemma game_clear_dims (g g' : Game) :
  game_clear g = Ret g' -> width g' = width g /\ height g' = height g.
Proof.
  unfold game_clear. intros E.
  apply bind_ret in E as (n & _ & E). apply bind_ret in E as (c & _ & E).
  apply bind_ret in E as (nx & _ & E). injection E as <-. auto.
Qed.

Lemma clear_bytes_wf (g : Game) :
  grid_wf g -> clear_bytes g = Ret (width g * height g * sizeof_int).
Proof.
  intros [Hs _ _]. unfold clear_bytes, int_mul.
  rewrite int_of_ok by (unfold INT_MIN; lia). cbn [bind].
  rewrite to_size_t_nonneg by lia. unfold size_mul.
  rewrite Z.mod_small; [reflexivity|]. unfold INT_MAX, SIZE_MOD, sizeof_int in *. lia.
Qed.

Lemma memset_zero_whole (buf : list Z) (n : Z) :
  Z.of_nat (length buf) = n ->
  memset_zero buf (n * sizeof_int) = Ret (replicate (length buf) 0).
Proof.
  intros <-. unfold memset_zero.
  destruct (Z.leb_spec (Z.of_nat (length buf) * sizeof_int) (sizeof_int * Z.of_nat (length buf)));
    [|lia].
  rewrite Z.div_mul by (unfold sizeof_int; lia). rewrite Nat2Z.id.
  now rewrite drop_all, app_nil_r.
Qed.

Lemma game_clear_value (g : Game) :
  grid_wf g ->
  game_clear g
  = Ret {| width := width g; height := height g;
           cells := replicate (length (cells g)) 0;
           next := replicate (length (next g)) 0 |}.
Proof.
  intros Hwf. unfold game_clear. rewrite (clear_bytes_wf g Hwf). cbn [bind].
  rewrite (memset_zero_whole (cells g)) by apply (wf_cells g Hwf). cbn [bind].
  rewrite (memset_zero_whole (next g)) by apply (wf_next g Hwf). reflexivity.
Qed.

Lemma game_clear_inv (g : Game) :
  grid_inv g -> exists g', game_clear g = Ret g' /\ grid_inv g'.
Proof.
  intros (Hwf & _ & _). eexists. split; [apply (game_clear_value g Hwf)|].
  destruct Hwf as [Hs Hc Hn].
  split; [split|split]; cbn; rewrite ?length_replicate; auto;
    apply Forall_replicate; left; reflexivity.
Qed.

(** ** [game_set_cell] and pattern placement always return on a grid *)

Lemma set_cell_total (g : Game) (x y alive : Z) :
  grid_wf g -> exists g', game_set_cell g x y alive = Ret g'.
Proof.
  intros Hwf. unfold game_set_cell. destruct (outside g x y) eqn:E; [eauto|].
  apply outside_false in E. rewrite (cell_index_in_grid g x y Hwf E). cbn [bind].
  rewrite store_in_bounds; [cbn [bind]; eauto|].
  rewrite (wf_cells g Hwf). apply (index_bounds g x y Hwf E).
Qed.

Lemma int_ok_true z : int_ok z = true -> INT_MIN <= z <= INT_MAX.
Proof.
  unfold int_ok. rewrite andb_true_iff, !Z.leb_le. tauto.
Qed.

Lemma set_cells_total (g : Game) (ox oy : Z) (coords : list (Z * Z)) :
  grid_wf g -> placement_fits coords ox oy = true ->
  exists g', set_cells g ox oy coords (Z.of_nat (length coords)) = Ret g'.
Proof.
  intros Hwf Hfit. unfold set_cells. rewrite Nat2Z.id.
  destruct (for_loop_inv (fun _ q => grid_wf q)
              (fun i g1 =>
                 match coords !! Z.to_nat i with
                 | Some (cx, cy) =>
                     let! x := int_add ox cx in
                     let! y := int_add oy cy in
                     game_set_cell g1 x y 1
                 | None => Undef
                 end)
              (length coords) 0 g Hwf) as (g' & E & _); [|eauto].
  intros i q Hi Hq.
  destruct (lookup_lt_is_Some_2 coords (Z.to_nat i)) as [[cx cy] Hc]; [lia|].
  rewrite Hc. unfold placement_fits in Hfit. rewrite forallb_forall in Hfit.
  specialize (Hfit (cx, cy)). cbn [fst snd] in Hfit.
  rewrite andb_true_iff in Hfit. destruct Hfit as [Hx Hy].
  { apply list_elem_of_In. eapply list_elem_of_lookup_2. exact Hc. }
  unfold int_add. rewrite !int_of_ok by now apply int_ok_true. cbn [bind].
  destruct (set_cell_total q (ox + cx) (oy + cy) 1 Hq) as (q' & Eq').
  exists q'. split; [exact Eq'|].
  eapply (set_cell_preserves grid_wf); [|exact Eq'|exact Hq].
  apply grid_wf_write_closed.
Qed.

Lemma pattern_load_set_cells (g : Game) (t : PatternType) (x y : Z) :
  pattern_load g t x y
  = set_cells g x y (pattern_coords t) (Z.of_nat (length (pattern_coords t))).
Proof. destruct t; reflexivity. Qed.

(** ** [game_randomize] *)

Lemma fill_state_weaken (R : Z) (g : Game) (rng : Rng) (d : float) (c1 c2 : Z)
    (d1 d2 : Z -> Z -> Prop) (s : Game * Rng) :
  c1 = c2 ->
  (forall x y, in_grid g x y -> d2 x y -> d1 x y) ->
  fill_state R g rng d c1 d1 s -> fill_state R g rng d c2 d2 s.
Proof.
  intros <- H (Hq & Hlen & Hr & Hd). repeat split; auto.
Qed.

Lemma fill_state_step (R : Z) (g : Game) (rng : Rng) (d : float)
    (done : Z -> Z -> Prop) (s : Game * Rng) (x y : Z) :
  grid_wf g -> in_grid g x y ->
  fill_state R g rng d (y * width g + x) done s ->
  exists s', randomize_cell R d y x s = Ret s' /\
             fill_state R g rng d (y * width g + x + 1)
               (fun x' y' => done x' y' \/ (x' = x /\ y' = y)) s'.
Proof.
  intros Hwf Hin (Hq & Hlen & Hr & Hdone).
  destruct s as [q r]. cbn [fst snd] in *.
  assert (grid_wf q) as Hwfq.
  { rewrite Hq. destruct Hwf as [Hs Hc Hn]. split; cbn; auto. now rewrite Hlen. }
  assert (in_grid q x y) as Hinq by (rewrite Hq; exact Hin).
  assert (width q = width g) as Ew by (rewrite Hq; reflexivity).
  destruct (index_bounds g x y Hwf Hin) as [_ Hi].
  unfold randomize_cell. cbn [rand fst snd].
  rewrite (cell_index_in_grid q x y Hwfq Hinq). cbn [bind].
  rewrite store_in_bounds by (rewrite (wf_cells q Hwfq), Ew; rewrite Hq; exact Hi).
  cbn [bind]. eexists. split; [reflexivity|].
  rewrite Ew. subst r. cbn [advance rand_seq rand_pos].
  repeat split; cbn [fst snd cells with_cells].
  - rewrite Hq at 1. reflexivity.
  - now rewrite length_insert.
  - unfold advance. f_equal. lia.
  - intros x' y' Hin' [Hd|[-> ->]].
    + destruct (Z.eq_dec (y * width g + x) (y' * width g + x')) as [E|N].
      * destruct Hin, Hin'. apply index_inj in E as [-> ->]; try lia.
        rewrite list_lookup_insert_eq; [reflexivity|].
        rewrite Hlen. pose proof (wf_cells g Hwf). lia.
      * destruct (index_bounds g x' y' Hwf Hin') as [_ Hi'].
        rewrite list_lookup_insert_ne by lia. now apply Hdone.
    + rewrite list_lookup_insert_eq; [reflexivity|].
      rewrite Hlen. pose proof (wf_cells g Hwf). lia.
Qed.

Lemma randomize_result (R : Z) (g : Game) (rng : Rng) (d : float) :
  grid_wf g ->
  exists s, game_randomize R g d rng = Ret s /\
            fst s = with_cells g (cells (fst s)) /\
            forall x y, in_grid g x y ->
              game_get_cell (fst s) x y = Ret (b2z (float_lt (cell_draw R g rng x y) d)).
Proof.
  intros Hwf. unfold game_randomize.
  destruct (for_loop_inv
              (fun y s => fill_state R g rng d (y * width g) (fun _ y' => y' < y) s)
              (fun y s => for_loop 0 (Z.to_nat (width (fst s))) (randomize_cell R d y) s)
              (Z.to_nat (height g)) 0 (g, rng)) as (s & Es & Hs).
  - repeat split; cbn [fst snd]; [now destruct g | |].
    + unfold advance. destruct rng. cbn. f_equal. lia.
    + intros x y [_ Hy] Hlt. lia.
  - intros y s Hy Hrow.
    assert (width (fst s) = width g) as Ew by (destruct Hrow as (-> & _); reflexivity).
    rewrite Ew.
    assert (0 <= width g) as Hw by (destruct Hwf as [Hsz _ _]; nia).
    destruct (for_loop_inv
                (fun x s1 => fill_state R g rng d (y * width g + x)
                               (fun x' y' => y' < y \/ (y' = y /\ x' < x)) s1)
                (randomize_cell R d y) (Z.to_nat (width g)) 0 s) as (s1 & Es1 & Hs1).
    + eapply fill_state_weaken; [| |exact Hrow]; unfold in_grid; cbn; intros; lia.
    + intros x s1 Hx Hcol.
      assert (in_grid g x y) as Hin by (unfold in_grid; lia).
      destruct (fill_state_step R g rng d _ s1 x y Hwf Hin Hcol) as (s2 & E2 & H2).
      exists s2. split; [exact E2|].
      eapply fill_state_weaken; [| |exact H2]; unfold in_grid; cbn; intros; lia.
    + exists s1. split; [exact Es1|].
      eapply fill_state_weaken; [| |exact Hs1]; unfold in_grid; cbn; intros; lia.
  - exists s. split; [exact Es|].
    destruct Hs as (Hq & Hlen & _ & Hdone). split; [exact Hq|].
    intros x y Hin.
    assert (grid_wf (fst s)) as Hwf'.
    { rewrite Hq. destruct Hwf as [Hsz Hc Hn]. split; cbn; auto. now rewrite Hlen. }
    assert (in_grid (fst s) x y) as Hin' by (rewrite Hq; exact Hin).
    destruct (get_cell_in_grid _ x y Hwf' Hin') as (v & Hv & ->).
    replace (width (fst s)) with (width g) in Hv by (rewrite Hq; reflexivity).
    rewrite Hdone in Hv; [now injection Hv as <- | exact Hin |]. destruct Hin. lia.
Qed.

Lemma float_lt_zero_false (r : float) :
  float_le float_zero r = true -> float_lt r float_zero = false.
Proof.
  destruct r as [s|s| |s m e]; cbn; try discriminate; try reflexivity;
    destruct s; cbn; try discriminate; reflexivity.
Qed.

(** C7. For a random source whose draws all lie in [[0, 1)]:
    [game_randomize] sets each cell of the grid to 1 iff its draw is
    strictly below [density] (and to 0 otherwise); so density 0.0 leaves
    every cell dead and density 1.0 makes every cell alive. *)
Theorem randomize_density (R : Z) (g : Game) (rng : Rng) :
  grid_wf g -> unit_draws R rng ->
  (forall d, exists g' rng',
      game_randomize R g d rng = Ret (g', rng') /\
      forall x y, in_grid g x y ->
        game_get_cell g' x y = Ret (b2z (float_lt (cell_draw R g rng x y) d))) /\
  (exists g' rng',
      game_randomize R g float_zero rng = Ret (g', rng') /\
      forall x y, in_grid g x y -> game_get_cell g' x y = Ret 0) /\
  (exists g' rng',
      game_randomize R g float_one rng = Ret (g', rng') /\
      forall x y, in_grid g x y -> game_get_cell g' x y = Ret 1).
Proof.
  intros Hwf Hu.
  assert (forall d, exists g' rng',
      game_randomize R g d rng = Ret (g', rng') /\
      forall x y, in_grid g x y ->
        game_get_cell g' x y = Ret (b2z (float_lt (cell_draw R g rng x y) d))) as Hall.
  { intros d. destruct (randomize_result R g rng d Hwf) as ([g' rng'] & E & _ & H).
    exists g', rng'. split; [exact E | exact H]. }
  split; [exact Hall|]. split.
  - destruct (Hall float_zero) as (g' & rng' & E & H). exists g', rng'.
    split; [exact E|]. intros x y Hin. rewrite (H x y Hin).
    unfold cell_draw. rewrite float_lt_zero_false; [reflexivity|].
    apply Hu. lia.
  - destruct (Hall float_one) as (g' & rng' & E & H). exists g', rng'.
    split; [exact E|]. intros x y Hin. rewrite (H x y Hin).
    unfold cell_draw.
    destruct (Hu (rand_pos rng + Z.to_nat (y * width g + x))%nat) as [_ ->];
      [lia | reflexivity].
Qed.

Lemma randomize_density_witness :
  (forall d, exists g' rng',
      game_randomize GLIBC_RAND_MAX sample_grid d zero_rng = Ret (g', rng') /\
      forall x y, in_grid sample_grid x y ->
        game_get_cell g' x y
        = Ret (b2z (float_lt (cell_draw GLIBC_RAND_MAX sample_grid zero_rng x y) d))) /\
  (exists g' rng',
      game_randomize GLIBC_RAND_MAX sample_grid float_zero zero_rng = Ret (g', rng') /\
      forall x y, in_grid sample_grid x y -> game_get_cell g' x y = Ret 0) /\
  (exists g' rng',
      game_randomize GLIBC_RAND_MAX sample_grid float_one zero_rng = Ret (g', rng') /\
      forall x y, in_grid sample_grid x y -> game_get_cell g' x y = Ret 1).
Proof.
  apply (randomize_density GLIBC_RAND_MAX sample_grid zero_rng).
  - split; cbn; unfold INT_MAX; lia.
  - intros n _. split; reflexivity.
Defined.

(** With the C library's own generator the premise of C7 can fail:
    [rand()] may return [RAND_MAX], and the draw is then 1.0, which is not
    below a density of 1.0, so the cell is left dead. *)
Example draw_of_rand_max : draw GLIBC_RAND_MAX GLIBC_RAND_MAX = float_one.
Proof. reflexivity. Qed.

(** Rounding to binary32 does the same to the 64 values just below
    [RAND_MAX]. *)
Example draw_rounds_to_one : draw GLIBC_RAND_MAX (GLIBC_RAND_MAX - 63) = float_one.
Proof. reflexivity. Qed.

Example draw_below_one :
  float_lt (draw GLIBC_RAND_MAX (GLIBC_RAND_MAX - 64)) float_one = true.
Proof. reflexivity. Qed.

Example randomize_one_with_rand_max :
  game_randomize GLIBC_RAND_MAX
    {| width := 1; height := 1; cells := [0]; next := [0] |} float_one
    {| rand_seq := fun _ => GLIBC_RAND_MAX; rand_pos := O |}
  = Ret ({| width := 1; height := 1; cells := [0]; next := [0] |},
         {| rand_seq := fun _ => GLIBC_RAND_MAX; rand_pos := 1%nat |}).
Proof. reflexivity. Qed.

(** ** Sequences of operations *)

Lemma swap_buffers_inv (q : Game) : grid_inv q -> grid_inv (swap_buffers q).
Proof.
  intros ([Hs Hc Hn] & Hbc & Hbn). split; [split|split]; cbn; auto.
Qed.

Lemma grid_inv_created (a : Allocator) (w h : Z) (g : Game) :
  game_create a w h = Ret (Some g) -> grid_inv g.
Proof.
  intros E. apply game_create_grid in E as [Hs ->].
  split; [split|split]; cbn; rewrite ?length_replicate; try lia;
    apply Forall_replicate; left; reflexivity.
Qed.

Section Operations.

Variable RAND_MAX : Z.

Lemma run_op_dims (o : Op) (g g' : Game) (rng rng' : Rng) :
  run_op RAND_MAX o (g, rng) = Ret (g', rng') ->
  width g' = width g /\ height g' = height g.
Proof.
  assert (HP := same_dims_write_closed (width g) (height g)).
  destruct o as [x y alive| |d| |t x y]; cbn [run_op fst snd]; intros E.
  - apply bind_ret in E as (q & Eq & [= <- _]).
    now apply (set_cell_preserves _ _ _ _ _ _ HP Eq).
  - apply bind_ret in E as (q & Eq & [= <- _]). now apply game_clear_dims.
  - now apply (randomize_preserves _ _ _ _ _ _ _ HP E).
  - apply bind_ret in E as (q & Eq & [= <- _]). unfold game_step in Eq.
    apply bind_ret in Eq as (p & Ep & [= <-]).
    now apply (step_pass_preserves _ _ _ HP Ep).
  - apply bind_ret in E as (q & Eq & [= <- _]).
    now apply (pattern_load_preserves _ _ _ _ _ _ HP Eq).
Qed.

Lemma run_op_inv (o : Op) (g g' : Game) (rng rng' : Rng) :
  grid_inv g -> run_op RAND_MAX o (g, rng) = Ret (g', rng') -> grid_inv g'.
Proof.
  assert (HP := grid_inv_write_closed). intros Hg.
  destruct o as [x y alive| |d| |t x y]; cbn [run_op fst snd]; intros E.
  - apply bind_ret in E as (q & Eq & [= <- _]).
    now apply (set_cell_preserves _ _ _ _ _ _ HP Eq).
  - apply bind_ret in E as (q & Eq & [= <- _]).
    destruct (game_clear_inv g Hg) as (q' & Eq' & Hq'). congruence.
  - now apply (randomize_preserves _ _ _ _ _ _ _ HP E).
  - apply bind_ret in E as (q & Eq & [= <- _]). unfold game_step in Eq.
    apply bind_ret in Eq as (p & Ep & [= <-]).
    apply swap_buffers_inv. now apply (step_pass_preserves _ _ _ HP Ep).
  - apply bind_ret in E as (q & Eq & [= <- _]).
    now apply (pattern_load_preserves _ _ _ _ _ _ HP Eq).
Qed.

Lemma run_op_total (o : Op) (g : Game) (rng : Rng) :
  grid_inv g -> op_defined o = true ->
  exists g' rng', run_op RAND_MAX o (g, rng) = Ret (g', rng').
Proof.
  intros (Hwf & Hbc & Hbn) Hdef.
  destruct o as [x y alive| |d| |t x y]; cbn [run_op fst snd].
  - destruct (set_cell_total g x y alive Hwf) as (q & ->). cbn. eauto.
  - rewrite (game_clear_value g Hwf). cbn. eauto.
  - destruct (randomize_result RAND_MAX g rng d Hwf) as ([q r] & -> & _). eauto.
  - destruct (step_pass_result g Hwf Hbc) as (q & Eq & _).
    unfold game_step. rewrite Eq. cbn. eauto.
  - rewrite pattern_load_set_cells.
    destruct (set_cells_total g x y (pattern_coords t) Hwf Hdef) as (q & ->).
    cbn. eauto.
Qed.

Lemma run_ops_kept (os : list Op) :
  forall (g g' : Game) (rng rng' : Rng),
    run_ops RAND_MAX os (g, rng) = Ret (g', rng') ->
    (width g' = width g /\ height g' = height g) /\ (grid_inv g -> grid_inv g').
Proof.
  induction os as [|o os IH]; intros g g' rng rng' E; cbn [run_ops] in E.
  - injection E as <- <-. auto.
  - apply bind_ret in E as ([q r] & Eo & E).
    destruct (IH _ _ _ _ E) as ([Hw Hh] & Hinv).
    destruct (run_op_dims _ _ _ _ _ Eo) as [Hw' Hh'].
    split; [split; congruence|].
    intros Hg. apply Hinv. eapply run_op_inv; eauto.
Qed.

Lemma run_ops_total (os : list Op) :
  forall (g : Game) (rng : Rng),
    grid_inv g -> forallb op_defined os = true ->
    exists g' rng', run_ops RAND_MAX os (g, rng) = Ret (g', rng').
Proof.
  induction os as [|o os IH]; intros g rng Hg Hdef; cbn [run_ops].
  - eauto.
  - cbn [forallb] in Hdef. apply andb_true_iff in Hdef as [Ho Hos].
    destruct (run_op_total o g rng Hg Ho) as (q & r & Eo). rewrite Eo. cbn [bind].
    apply IH; [|exact Hos]. eapply run_op_inv; eauto.
Qed.

(** C8. Whatever sequence of [game_set_cell], [game_clear],
    [game_randomize], [game_step] and pattern placements is applied to a
    grid, the result has the width and height it started with; and on a
    grid of the data model such a sequence does return a result. *)
Theorem operations_keep_dimensions (os : list Op) (g : Game) (rng : Rng) :
  (forall g' rng', run_ops RAND_MAX os (g, rng) = Ret (g', rng') ->
                   width g' = width g /\ height g' = height g) /\
  (grid_inv g -> forallb op_defined os = true ->
   exists g' rng', run_ops RAND_MAX os (g, rng) = Ret (g', rng') /\
                   width g' = width g /\ height g' = height g).
Proof.
  split.
  - intros g' rng' E. now apply run_ops_kept in E.
  - intros Hg Hdef. destruct (run_ops_total os g rng Hg Hdef) as (g' & rng' & E).
    exists g', rng'. split; [exact E|]. now apply run_ops_kept in E.
Qed.

(** C9. On a grid returned by [game_create], after any sequence of
    [game_set_cell], [game_clear], [game_randomize], [game_step] and
    pattern placements, every cell of the current buffer is 0 or 1; and
    such a sequence does return a result. *)
Theorem cells_stay_binary (a : Allocator) (w h : Z) (g : Game) (os : list Op) (rng : Rng) :
  game_create a w h = Ret (Some g) ->
  (forall g' rng', run_ops RAND_MAX os (g, rng) = Ret (g', rng') ->
                   Forall binary (cells g')) /\
  (forallb op_defined os = true ->
   exists g' rng', run_ops RAND_MAX os (g, rng) = Ret (g', rng') /\
                   Forall binary (cells g')).
Proof.
  intros Hc. apply grid_inv_created in Hc.
  assert (forall g' rng', run_ops RAND_MAX os (g, rng) = Ret (g', rng') ->
                          Forall binary (cells g')) as Hpart.
  { intros g' rng' E. apply run_ops_kept in E as [_ Hinv]. now apply Hinv. }
  split; [exact Hpart|].
  intros Hdef. destruct (run_ops_total os g rng Hc Hdef) as (g' & rng' & E).
  exists g', rng'. split; [exact E|]. eapply Hpart; eauto.
Qed.

End Operations.

Lemma sample_grid_inv : grid_inv sample_grid.
Proof.
  split; [split; cbn; unfold INT_MAX; lia|].
  split; repeat (constructor; [unfold binary; lia|]); constructor.
Defined.

Lemma operations_keep_dimensions_witness :
  exists g' rng',
    run_ops GLIBC_RAND_MAX sample_ops (sample_grid, zero_rng) = Ret (g', rng') /\
    width g' = width sample_grid /\ height g' = height sample_grid.
Proof.
  apply (proj2 (operations_keep_dimensions GLIBC_RAND_MAX sample_ops sample_grid zero_rng)).
  - exact sample_grid_inv.
  - reflexivity.
Defined.

Lemma cells_stay_binary_witness :
  exists g' rng',
    run_ops GLIBC_RAND_MAX sample_ops (fresh_3x2, zero_rng) = Ret (g', rng') /\
    Forall binary (cells g').
Proof.
  apply (proj2 (cells_stay_binary GLIBC_RAND_MAX granting 3 2 fresh_3x2 sample_ops zero_rng
                  eq_refl)).
  reflexivity.
Defined.


(** ** More on cells: creation, writes, clearing *)

Lemma game_create_all_dead (a : Allocator) (w h : Z) (g : Game) :
  game_create a w h = Ret (Some g) -> all_dead g.
Proof.
  intros E. pose proof (grid_inv_created a w h g E) as (Hwf & _ & _).
  apply game_create_grid in E as [_ Hg].
  intros x y. destruct (outside g x y) eqn:Ho.
  - unfold game_get_cell. now rewrite Ho.
  - apply outside_false in Ho.
    destruct (get_cell_in_grid g x y Hwf Ho) as (v & Hv & ->).
    rewrite Hg in Hv. cbn [cells] in Hv.
    apply lookup_replicate in Hv as [-> _]. reflexivity.
Qed.

(** X1. A grid returned by [game_create] has the dimensions asked for and
    no live cell. *)
Theorem fresh_grid_all_dead (a : Allocator) (w h : Z) (g : Game) :
  game_create a w h = Ret (Some g) ->
  width g = w /\ height g = h /\ all_dead g.
Proof.
  intros E. split; [|split]; [| |exact (game_create_all_dead a w h g E)];
    apply game_create_grid in E as [_ ->]; reflexivity.
Qed.

Lemma fresh_grid_all_dead_witness :
  width fresh_3x2 = 3 /\ height fresh_3x2 = 2 /\ all_dead fresh_3x2.
Proof. apply (fresh_grid_all_dead granting 3 2 fresh_3x2). reflexivity. Defined.

Lemma get_cell_same_cells (g g' : Game) (x y : Z) :
  width g' = width g -> height g' = height g -> cells g' = cells g ->
  game_get_cell g' x y = game_get_cell g x y.
Proof.
  intros Hw Hh Hc. unfold game_get_cell, outside, cell_index. now rewrite Hw, Hh, Hc.
Qed.

Lemma set_cell_value (g : Game) (x y alive : Z) :
  grid_wf g -> in_grid g x y ->
  game_set_cell g x y alive
  = Ret (with_cells g (<[Z.to_nat (y * width g + x) := if alive =? 0 then 0 else 1]> (cells g))).
Proof.
  intros Hwf Hin. unfold game_set_cell.
  rewrite (proj2 (outside_false g x y) Hin), (cell_index_in_grid g x y Hwf Hin). cbn [bind].
  rewrite store_in_bounds; [reflexivity|].
  rewrite (wf_cells g Hwf). apply (index_bounds g x y Hwf Hin).
Qed.

Lemma set_cell_then_get_aux (g : Game) (x y alive : Z) :
  grid_wf g -> in_grid g x y ->
  exists g', game_set_cell g x y alive = Ret g' /\ grid_wf g' /\
             game_get_cell g' x y = Ret (if alive =? 0 then 0 else 1) /\
             (forall x' y', (x', y') <> (x, y) ->
                            game_get_cell g' x' y' = game_get_cell g x' y') /\
             next g' = next g /\ width g' = width g /\ height g' = height g.
Proof.
  intros Hwf Hin. eexists. split; [apply (set_cell_value g x y alive Hwf Hin)|].
  set (g' := with_cells g _).
  assert (grid_wf g') as Hwf'.
  { destruct Hwf as [Hs Hc Hn]. split; cbn; rewrite ?length_insert; auto. }
  destruct (index_bounds g x y Hwf Hin) as [_ Hi].
  split; [exact Hwf'|]. repeat split.
  - destruct (get_cell_in_grid g' x y Hwf' Hin) as (v & Hv & ->).
    cbn in Hv. rewrite list_lookup_insert_eq in Hv by (pose proof (wf_cells g Hwf); lia).
    now injection Hv as <-.
  - intros x' y' Hne. destruct (outside g x' y') eqn:Ho.
    + unfold game_get_cell. change (outside g' x' y') with (outside g x' y'). now rewrite Ho.
    + apply outside_false in Ho.
      destruct (get_cell_in_grid g' x' y' Hwf' Ho) as (v & Hv & ->).
      destruct (get_cell_in_grid g x' y' Hwf Ho) as (u & Hu & ->).
      cbn in Hv. destruct (index_bounds g x' y' Hwf Ho) as [_ Hi'].
      rewrite list_lookup_insert_ne in Hv.
      * congruence.
      * intros E. apply Z2Nat.inj in E; try lia.
        destruct Hin, Ho. apply index_inj in E as [-> ->]; try lia. now apply Hne.
Qed.


(** X2. On a grid, [game_set_cell] at an in-range cell followed by
    [game_get_cell] at that cell reads 0 for [alive = 0] and 1 for any
    other value; every other cell reads as before, and the scratch buffer
    and the dimensions are untouched. *)
Theorem set_cell_then_get (g : Game) (x y alive : Z) :
  grid_wf g -> in_grid g x y ->
  exists g', game_set_cell g x y alive = Ret g' /\
             game_get_cell g' x y = Ret (if alive =? 0 then 0 else 1) /\
             (forall x' y', (x', y') <> (x, y) ->
                            game_get_cell g' x' y' = game_get_cell g x' y') /\
             next g' = next g /\ width g' = width g /\ height g' = height g.
Proof.
  intros Hwf Hin.
  destruct (set_cell_then_get_aux g x y alive Hwf Hin) as (g' & E & _ & H).
  exists g'. split; [exact E | exact H].
Qed.

Lemma set_cell_then_get_witness :
  exists g', game_set_cell sample_grid 2 1 7 = Ret g' /\
             game_get_cell g' 2 1 = Ret (if 7 =? 0 then 0 else 1) /\
             (forall x' y', (x', y') <> (2, 1) ->
                            game_get_cell g' x' y' = game_get_cell sample_grid x' y') /\
             next g' = next sample_grid /\ width g' = width sample_grid /\
             height g' = height sample_grid.
Proof.
  apply (set_cell_then_get sample_grid 2 1 7).
  - split; cbn; unfold INT_MAX; lia.
  - unfold in_grid. cbn. lia.
Defined.

Lemma set_cell_outside (g : Game) (x y alive : Z) :
  outside g x y = true -> game_set_cell g x y alive = Ret g.
Proof. intros H. unfold game_set_cell. now rewrite H. Qed.

(** X3. Two writes of [game_set_cell] to different cells give the same
    grid in either order, and of two writes to one cell only the second
    counts. *)
Theorem set_cell_compose (g : Game) (x1 y1 a1 x2 y2 a2 : Z) :
  grid_wf g ->
  ((x1, y1) <> (x2, y2) ->
   (let! g1 := game_set_cell g x1 y1 a1 in game_set_cell g1 x2 y2 a2)
   = (let! g1 := game_set_cell g x2 y2 a2 in game_set_cell g1 x1 y1 a1)) /\
  (let! g1 := game_set_cell g x1 y1 a1 in game_set_cell g1 x1 y1 a2)
  = game_set_cell g x1 y1 a2.
Proof.
  intros Hwf.
  assert (forall c, grid_wf (with_cells g (<[c := 0]> (cells g))) /\
                    grid_wf (with_cells g (<[c := 1]> (cells g)))) as Hw.
  { intros c. destruct Hwf as [Hs Hc Hn]. split; split; cbn; rewrite ?length_insert; auto. }
  assert (forall c v, v = 0 \/ v = 1 -> grid_wf (with_cells g (<[c := v]> (cells g)))) as Hwv.
  { intros c v [-> | ->]; apply Hw. }
  assert (forall a : Z, (if a =? 0 then 0 else 1) = 0 \/ (if a =? 0 then 0 else 1) = 1) as Hb
    by (intros a; destruct (a =? 0); auto).
  split.
  - intros Hne.
    destruct (outside g x1 y1) eqn:O1, (outside g x2 y2) eqn:O2.
    + rewrite (set_cell_outside g x1 y1 a1 O1), (set_cell_outside g x2 y2 a2 O2).
      cbn [bind]. now rewrite (set_cell_outside g x1 y1 a1 O1), (set_cell_outside g x2 y2 a2 O2).
    + rewrite (set_cell_outside g x1 y1 a1 O1). cbn [bind].
      apply outside_false in O2. rewrite (set_cell_value g x2 y2 a2 Hwf O2). cbn [bind].
      now rewrite set_cell_outside.
    + rewrite (set_cell_outside g x2 y2 a2 O2). cbn [bind].
      apply outside_false in O1. rewrite (set_cell_value g x1 y1 a1 Hwf O1). cbn [bind].
      now rewrite set_cell_outside.
    + apply outside_false in O1, O2.
      rewrite (set_cell_value g x1 y1 a1 Hwf O1), (set_cell_value g x2 y2 a2 Hwf O2).
      cbn [bind]. rewrite !set_cell_value; try assumption; try (apply Hwv, Hb).
      cbn [width cells with_cells]. unfold with_cells. cbn [width height next cells].
      do 2 f_equal. apply list_insert_insert_ne.
      destruct (index_bounds g x1 y1 Hwf O1) as [_ H1].
      destruct (index_bounds g x2 y2 Hwf O2) as [_ H2].
      intros E. apply Z2Nat.inj in E; try lia.
      destruct O1, O2. apply index_inj in E as [-> ->]; try lia. now apply Hne.
  - destruct (outside g x1 y1) eqn:O1.
    + rewrite !(set_cell_outside g x1 y1 _ O1). cbn [bind].
      now rewrite (set_cell_outside g x1 y1 _ O1).
    + apply outside_false in O1.
      rewrite (set_cell_value g x1 y1 a1 Hwf O1). cbn [bind].
      rewrite !set_cell_value; try assumption; try (apply Hwv, Hb).
      unfold with_cells. cbn [width height next cells].
      do 2 f_equal. apply list_insert_insert_eq.
Qed.

Lemma set_cell_compose_witness :
  ((0, 0) <> (2, 1) ->
   (let! g1 := game_set_cell sample_grid 0 0 0 in game_set_cell g1 2 1 1)
   = (let! g1 := game_set_cell sample_grid 2 1 1 in game_set_cell g1 0 0 0)) /\
  (let! g1 := game_set_cell sample_grid 0 0 0 in game_set_cell g1 0 0 1)
  = game_set_cell sample_grid 0 0 1.
Proof.
  apply (set_cell_compose sample_grid 0 0 0 2 1 1).
  split; cbn; unfold INT_MAX; lia.
Defined.

(** X4. [game_clear] brings a grid back to what [game_create] returned,
    whatever operations were applied in between: both buffers are all
    zero again. *)
Theorem clear_restores_fresh (R : Z) (a : Allocator) (w h : Z) (g0 g : Game)
    (os : list Op) (rng rng' : Rng) :
  game_create a w h = Ret (Some g0) ->
  run_ops R os (g0, rng) = Ret (g, rng') ->
  game_clear g = Ret g0.
Proof.
  intros Hc Hr. pose proof (grid_inv_created a w h g0 Hc) as Hinv0.
  apply game_create_grid in Hc as [Hs Hg0].
  destruct (run_ops_kept R os g0 g rng rng' Hr) as ([Hw Hh] & Hinv).
  destruct (Hinv Hinv0) as ([Hsz Hcl Hnx] & _ & _).
  rewrite game_clear_value by (split; assumption).
  rewrite Hw, Hh, Hg0. cbn [width height]. do 2 f_equal; f_equal.
  - rewrite Hw, Hh, Hg0 in Hcl. cbn [width height] in Hcl. lia.
  - rewrite Hw, Hh, Hg0 in Hnx. cbn [width height] in Hnx. lia.
Qed.

Lemma clear_restores_fresh_witness :
  game_clear {| width := 3; height := 2; cells := [0; 0; 0; 0; 0; 0];
                next := [0; 1; 0; 0; 0; 1] |}
  = Ret fresh_3x2.
Proof.
  apply (clear_restores_fresh GLIBC_RAND_MAX granting 3 2 fresh_3x2 _
           [OpPlace PATTERN_GLIDER 0 0; OpStep] zero_rng zero_rng);
    reflexivity.
Defined.

(** ** More on [game_step] *)

Lemma game_step_result (g : Game) :
  grid_wf g -> Forall binary (cells g) ->
  exists g', game_step g = Ret g' /\
             width g' = width g /\ height g' = height g /\
             next g' = cells g /\ length (cells g') = length (next g) /\
             forall x y, in_grid g x y -> game_get_cell g' x y = Ret (next_value g x y).
Proof.
  intros Hwf Hb.
  destruct (step_pass_result g Hwf Hb) as (q & Eq & Hq & Hlen & Hdone).
  exists (swap_buffers q). unfold game_step. rewrite Eq. cbn [bind].
  split; [reflexivity|]. rewrite Hq. cbn [width height next cells swap_buffers with_next].
  repeat split; [exact Hlen|].
  intros x y Hin.
  assert (grid_wf (swap_buffers q)) as Hwf'.
  { rewrite Hq. destruct Hwf as [Hs Hc Hn]. split; cbn; auto. lia. }
  assert (in_grid (swap_buffers q) x y) as Hin' by (rewrite Hq; exact Hin).
  destruct (get_cell_in_grid _ x y Hwf' Hin') as (v & Hv & E).
  rewrite Hq in E. rewrite E.
  replace (width (swap_buffers q)) with (width g) in Hv by (rewrite Hq; reflexivity).
  cbn [cells swap_buffers] in Hv. rewrite (Hdone x y Hin I) in Hv.
  now injection Hv as <-.
Qed.

Lemma game_step_inv (g : Game) :
  grid_inv g -> exists g', game_step g = Ret g' /\ grid_inv g'.
Proof.
  intros (Hwf & Hbc & Hbn).
  destruct (step_pass_result g Hwf Hbc) as (q & Eq & _).
  exists (swap_buffers q). unfold game_step. rewrite Eq. split; [reflexivity|].
  apply swap_buffers_inv.
  apply (step_pass_preserves grid_inv g q grid_inv_write_closed Eq).
  exact (conj Hwf (conj Hbc Hbn)).
Qed.

Lemma live_count_dead (g : Game) (x y : Z) : all_dead g -> live_count g x y = 0.
Proof.
  intros Hd. unfold live_count. rewrite filter_count. cbn [fold_right moore_offsets fst snd].
  unfold alive_at. rewrite !Hd. reflexivity.
Qed.

Lemma step_all_dead (g : Game) :
  grid_inv g -> all_dead g ->
  exists g', game_step g = Ret g' /\ grid_inv g' /\ all_dead g'.
Proof.
  intros Hinv Hd. destruct (game_step_inv g Hinv) as (g' & E & Hinv').
  exists g'. split; [exact E|]. split; [exact Hinv'|].
  destruct Hinv as (Hwf & Hb & _).
  destruct (game_step_result g Hwf Hb) as (g'' & E' & Hw & Hh & _ & _ & Hval).
  rewrite E in E'. injection E' as <-.
  intros x y. destruct (outside g' x y) eqn:Ho.
  - unfold game_get_cell. now rewrite Ho.
  - apply outside_false in Ho. unfold in_grid in Ho. rewrite Hw, Hh in Ho.
    rewrite (Hval x y Ho). unfold next_value, alive_at.
    rewrite (live_count_dead g x y Hd), Hd. reflexivity.
Qed.

(** X5. The empty grid is a fixed point: on a grid with no live cell, any
    number of calls of [game_step] returns a grid with no live cell. *)
Theorem dead_grid_stays_dead (n : nat) (g : Game) :
  grid_inv g -> all_dead g ->
  exists g', game_steps n g = Ret g' /\ all_dead g'.
Proof.
  revert g. induction n as [|n IH]; intros g Hinv Hd; cbn [game_steps].
  - eauto.
  - destruct (step_all_dead g Hinv Hd) as (g1 & -> & Hinv1 & Hd1). cbn [bind]. eauto.
Qed.

Lemma fresh_3x2_inv : grid_inv fresh_3x2.
Proof. exact (grid_inv_created granting 3 2 fresh_3x2 eq_refl). Defined.

Lemma dead_grid_stays_dead_witness :
  exists g', game_steps 5 fresh_3x2 = Ret g' /\ all_dead g'.
Proof.
  apply (dead_grid_stays_dead 5 fresh_3x2).
  - exact fresh_3x2_inv.
  - exact (game_create_all_dead granting 3 2 fresh_3x2 eq_refl).
Defined.

(** X6. What [game_step] computes does not depend on what the scratch
    buffer held: started on the same current generation with any other
    content of [next], it returns a grid that reads the same everywhere. *)
Theorem step_ignores_scratch (g : Game) (n : list Z) :
  grid_wf g -> Forall binary (cells g) -> length n = length (next g) ->
  exists g1 g2, game_step g = Ret g1 /\ game_step (with_next g n) = Ret g2 /\
                forall x y, game_get_cell g2 x y = game_get_cell g1 x y.
Proof.
  intros Hwf Hb Hlen.
  assert (grid_wf (with_next g n)) as Hwf2.
  { destruct Hwf as [Hs Hc Hn]. split; cbn; auto. now rewrite Hlen. }
  destruct (game_step_result g Hwf Hb) as (g1 & E1 & Hw1 & Hh1 & _ & _ & H1).
  destruct (game_step_result (with_next g n) Hwf2 Hb) as (g2 & E2 & Hw2 & Hh2 & _ & _ & H2).
  exists g1, g2. split; [exact E1|]. split; [exact E2|].
  intros x y. destruct (outside g x y) eqn:Ho.
  - unfold game_get_cell, outside in *. cbn [width height with_next] in Hw2, Hh2.
    rewrite Hw1, Hh1, Hw2, Hh2. now rewrite Ho.
  - apply outside_false in Ho. rewrite (H1 x y Ho), (H2 x y Ho). reflexivity.
Qed.

Lemma step_ignores_scratch_witness :
  exists g1 g2, game_step sample_grid = Ret g1 /\
                game_step (with_next sample_grid [1; 1; 1; 1; 1; 1]) = Ret g2 /\
                forall x y, game_get_cell g2 x y = game_get_cell g1 x y.
Proof.
  apply (step_ignores_scratch sample_grid [1; 1; 1; 1; 1; 1]).
  - exact (proj1 sample_grid_inv).
  - exact (proj1 (proj2 sample_grid_inv)).
  - reflexivity.
Defined.

(** ** More on the pattern catalog *)

Lemma coord_in_snoc (l : list (Z * Z)) (c : Z * Z) (x y : Z) :
  coord_in (l ++ [c]) x y = coord_in l x y || ((fst c =? x) && (snd c =? y)).
Proof.
  unfold coord_in. rewrite existsb_app. cbn [existsb]. now rewrite orb_false_r.
Qed.

Lemma set_cells_cells (g : Game) (ox oy : Z) (coords : list (Z * Z)) :
  grid_wf g -> placement_fits coords ox oy = true ->
  exists g', set_cells g ox oy coords (Z.of_nat (length coords)) = Ret g' /\
             (forall x y, game_get_cell g' x y
                          = if negb (outside g x y) && coord_in coords (x - ox) (y - oy)
                            then Ret 1 else game_get_cell g x y) /\
             next g' = next g /\ width g' = width g /\ height g' = height g.
Proof.
  intros Hwf Hfit. unfold set_cells. rewrite Nat2Z.id.
  destruct (for_loop_inv
              (fun i q =>
                 grid_wf q /\ next q = next g /\ width q = width g /\ height q = height g /\
                 forall x y, game_get_cell q x y
                             = if negb (outside g x y)
                                  && coord_in (take (Z.to_nat i) coords) (x - ox) (y - oy)
                               then Ret 1 else game_get_cell g x y)
              (fun i g1 =>
                 match coords !! Z.to_nat i with
                 | Some (cx, cy) =>
                     let! x := int_add ox cx in
                     let! y := int_add oy cy in
                     game_set_cell g1 x y 1
                 | None => Undef
                 end)
              (length coords) 0 g) as (g' & E & Hwf' & Hn & Hw & Hh & Hget).
  - repeat split; try apply Hwf. intros x y. cbn. now rewrite andb_false_r.
  - intros i q Hi (Hq & Hn & Hw & Hh & Hget).
    destruct (lookup_lt_is_Some_2 coords (Z.to_nat i)) as [[cx cy] Hc]; [lia|].
    rewrite Hc. unfold placement_fits in Hfit. rewrite forallb_forall in Hfit.
    specialize (Hfit (cx, cy)). cbn [fst snd] in Hfit.
    rewrite andb_true_iff in Hfit. destruct Hfit as [Hx Hy].
    { apply list_elem_of_In. eapply list_elem_of_lookup_2. exact Hc. }
    unfold int_add. rewrite !int_of_ok by now apply int_ok_true. cbn [bind].
    replace (Z.to_nat (i + 1)) with (Datatypes.S (Z.to_nat i)) by lia.
    rewrite (take_S_r _ _ _ Hc).
    assert (outside q (ox + cx) (oy + cy) = outside g (ox + cx) (oy + cy)) as Eo
      by (unfold outside; now rewrite Hw, Hh).
    destruct (outside g (ox + cx) (oy + cy)) eqn:Ho.
    + rewrite (set_cell_outside q _ _ 1 Eo). eexists. split; [reflexivity|].
      repeat split; try assumption; try apply Hq.
      intros x y. rewrite Hget, coord_in_snoc. cbn [fst snd].
      destruct (Z.eqb_spec cx (x - ox)) as [Ex|]; [|now rewrite andb_false_l, orb_false_r].
      destruct (Z.eqb_spec cy (y - oy)) as [Ey|]; [|now rewrite andb_false_r, orb_false_r].
      replace x with (ox + cx) by lia. replace y with (oy + cy) by lia.
      rewrite Ho. reflexivity.
    + apply outside_false in Eo.
      destruct (set_cell_then_get_aux q (ox + cx) (oy + cy) 1 Hq Eo)
        as (q' & Eq' & Hq' & Hhit & Hmiss & Hn' & Hw' & Hh').
      exists q'. split; [exact Eq'|].
      repeat split; try congruence; try apply Hq'.
      intros x y. rewrite coord_in_snoc. cbn [fst snd].
      destruct (Z.eqb_spec cx (x - ox)) as [Ex|Nx];
        [destruct (Z.eqb_spec cy (y - oy)) as [Ey|Ny]|].
      * replace x with (ox + cx) by lia. replace y with (oy + cy) by lia.
        rewrite Hhit, Ho. cbn. now rewrite orb_true_r.
      * rewrite Hmiss by (intros [= ? ?]; lia). rewrite Hget.
        now rewrite andb_false_r, orb_false_r.
      * rewrite Hmiss by (intros [= ? ?]; lia). rewrite Hget.
        now rewrite andb_false_l, orb_false_r.
  - exists g'. split; [exact E|]. repeat split; try assumption.
    intros x y. rewrite Hget.
    replace (Z.to_nat (0 + Z.of_nat (length coords))) with (length coords) by lia.
    now rewrite firstn_all.
Qed.

(** X7. On a grid, [pattern_load] whose coordinate sums fit an [int]
    always returns; afterwards a cell of the grid reads 1 if it is the
    origin plus one of the pattern's coordinates, and reads as before
    otherwise.  Coordinates that fall outside the grid are dropped, and the
    scratch buffer and the dimensions are not touched. *)
Theorem pattern_load_cells (g : Game) (t : PatternType) (ox oy : Z) :
  grid_wf g -> placement_fits (pattern_coords t) ox oy = true ->
  exists g', pattern_load g t ox oy = Ret g' /\
             (forall x y, game_get_cell g' x y
                          = if negb (outside g x y)
                               && coord_in (pattern_coords t) (x - ox) (y - oy)
                            then Ret 1 else game_get_cell g x y) /\
             next g' = next g /\ width g' = width g /\ height g' = height g.
Proof.
  intros Hwf Hfit. rewrite pattern_load_set_cells. now apply set_cells_cells.
Qed.

Lemma pattern_load_cells_witness :
  exists g', pattern_load sample_grid PATTERN_GLIDER 1 (-1) = Ret g' /\
             (forall x y, game_get_cell g' x y
                          = if negb (outside sample_grid x y)
                               && coord_in (pattern_coords PATTERN_GLIDER) (x - 1) (y - -1)
                            then Ret 1 else game_get_cell sample_grid x y) /\
             next g' = next sample_grid /\ width g' = width sample_grid /\
             height g' = height sample_grid.
Proof.
  apply (pattern_load_cells sample_grid PATTERN_GLIDER 1 (-1)).
  - exact (proj1 sample_grid_inv).
  - reflexivity.
Defined.

Lemma pattern_from_name_names (name : string) (out : option PatternType) (t : PatternType) :
  In name (pattern_names t) -> pattern_from_name name out = (1, Some t).
Proof.
  destruct t; cbn; intros H;
    repeat (destruct H as [<-|H]; [reflexivity|]); destruct H.
Qed.

(** X8. [pattern_from_name] returns 1 with pattern [t] stored exactly for
    the names of [t]: one name for each pattern, and the two names
    ["gosper"] and ["gosper_gun"] for the gun.  Matching is exact, so no
    name finds two patterns. *)
Theorem pattern_from_name_exact (name : string) (out : option PatternType) (t : PatternType) :
  pattern_from_name name out = (1, Some t) <-> In name (pattern_names t).
Proof.
  split.
  - unfold pattern_from_name.
    repeat match goal with
           | |- context [strcmp name ?s =? 0] =>
               let E := fresh "E" in
               destruct (strcmp name s =? 0) eqn:E;
               [apply Z.eqb_eq, strcmp_zero in E; subst name;
                intros [= <-]; cbn; tauto|]
           end.
    discriminate.
  - apply pattern_from_name_names.
Qed.

(** ** More on [game_randomize] *)

Lemma randomize_fill (R : Z) (g : Game) (rng : Rng) (d : float) :
  grid_wf g ->
  exists s, game_randomize R g d rng = Ret s /\
            fill_state R g rng d (Z.of_nat (Z.to_nat (height g)) * width g)
              (fun _ _ => True) s.
Proof.
  intros Hwf. unfold game_randomize.
  destruct (for_loop_inv
              (fun y s => fill_state R g rng d (y * width g) (fun _ y' => y' < y) s)
              (fun y s => for_loop 0 (Z.to_nat (width (fst s))) (randomize_cell R d y) s)
              (Z.to_nat (height g)) 0 (g, rng)) as (s & Es & Hs).
  - repeat split; cbn [fst snd]; [now destruct g | |].
    + unfold advance. destruct rng. cbn. f_equal. lia.
    + intros x y [_ Hy] Hlt. lia.
  - intros y s Hy Hrow.
    assert (width (fst s) = width g) as Ew by (destruct Hrow as (-> & _); reflexivity).
    rewrite Ew.
    assert (0 <= width g) as Hw by (destruct Hwf as [Hsz _ _]; nia).
    destruct (for_loop_inv
                (fun x s1 => fill_state R g rng d (y * width g + x)
                               (fun x' y' => y' < y \/ (y' = y /\ x' < x)) s1)
                (randomize_cell R d y) (Z.to_nat (width g)) 0 s) as (s1 & Es1 & Hs1).
    + eapply fill_state_weaken; [| |exact Hrow]; unfold in_grid; cbn; intros; lia.
    + intros x s1 Hx Hcol.
      assert (in_grid g x y) as Hin by (unfold in_grid; lia).
      destruct (fill_state_step R g rng d _ s1 x y Hwf Hin Hcol) as (s2 & E2 & H2).
      exists s2. split; [exact E2|].
      eapply fill_state_weaken; [| |exact H2]; unfold in_grid; cbn; intros; lia.
    + exists s1. split; [exact Es1|].
      eapply fill_state_weaken; [| |exact Hs1]; unfold in_grid; cbn; intros; lia.
  - exists s. split; [exact Es|].
    eapply fill_state_weaken; [| |exact Hs]; [lia|]. unfold in_grid. intros; lia.
Qed.

(** X9. On a grid with non-negative dimensions, [game_randomize] calls
    [rand()] exactly [width * height] times, once per cell, and leaves the
    scratch buffer and the dimensions as they were. *)
Theorem randomize_draw_count (R : Z) (g : Game) (rng : Rng) (d : float) :
  grid_wf g -> 0 <= width g -> 0 <= height g ->
  exists g', game_randomize R g d rng
             = Ret (g', advance rng (Z.to_nat (width g * height g))) /\
             next g' = next g /\ width g' = width g /\ height g' = height g.
Proof.
  intros Hwf Hw Hh.
  destruct (randomize_fill R g rng d Hwf) as ([g' rng'] & E & Hq & _ & Hr & _).
  cbn [fst snd] in Hq, Hr. exists g'. rewrite E, Hr, Hq.
  replace (Z.of_nat (Z.to_nat (height g)) * width g) with (width g * height g) by lia.
  repeat split.
Qed.

Lemma randomize_draw_count_witness :
  exists g', game_randomize GLIBC_RAND_MAX sample_grid float_one zero_rng
             = Ret (g', advance zero_rng (Z.to_nat (width sample_grid * height sample_grid))) /\
             next g' = next sample_grid /\ width g' = width sample_grid /\
             height g' = height sample_grid.
Proof.
  apply (randomize_draw_count GLIBC_RAND_MAX sample_grid zero_rng float_one).
  - exact (proj1 sample_grid_inv).
  - cbn. lia.
  - cbn. lia.
Defined.

(** *** Draws are never negative *)

Lemma shr_1_nonneg (mrs : shr_record) : 0 <= shr_m mrs -> 0 <= shr_m (shr_1 mrs).
Proof.
  destruct mrs as [m r s]. cbn [shr_m]. intros H.
  destruct m as [|[p|p|]|p]; cbn; lia.
Qed.

Lemma iter_pos_shr_1_nonneg (p : positive) :
  forall mrs, 0 <= shr_m mrs -> 0 <= shr_m (SpecFloat.iter_pos shr_1 p mrs).
Proof.
  induction p as [p IH|p IH|]; intros mrs H; cbn [SpecFloat.iter_pos]; auto using shr_1_nonneg.
Qed.

Lemma shr_fexp_nonneg (m e : Z) (l : location) :
  0 <= m -> 0 <= shr_m (fst (shr_fexp 24 128 m e l)).
Proof.
  intros H. unfold shr_fexp, shr.
  assert (0 <= shr_m (shr_record_of_loc m l)) as H0
    by (destruct l as [|[]]; cbn; exact H).
  destruct (fexp 24 128 (Zdigits2 m + e) - e); cbn [fst]; auto using iter_pos_shr_1_nonneg.
Qed.

Lemma round_nearest_even_nonneg (m : Z) (l : location) :
  0 <= m -> 0 <= round_nearest_even m l.
Proof.
  intros H. destruct l as [|[]]; cbn [round_nearest_even]; try lia.
  destruct (Z.even m); lia.
Qed.

Lemma binary_round_aux_nonneg (mx ex : Z) (lx : location) :
  0 <= mx -> float_le float_zero (binary_round_aux 24 128 false mx ex lx) = true.
Proof.
  intros H. unfold binary_round_aux.
  pose proof (shr_fexp_nonneg mx ex lx H) as H1.
  destruct (shr_fexp 24 128 mx ex lx) as [mrs' e']. cbn [fst] in H1.
  pose proof (shr_fexp_nonneg _ e' loc_Exact
                (round_nearest_even_nonneg _ (loc_of_shr_record mrs') H1)) as H2.
  destruct (shr_fexp 24 128 _ e' loc_Exact) as [mrs'' e'']. cbn [fst] in H2.
  destruct (shr_m mrs'') as [|m|m]; [reflexivity| |lia].
  destruct (e'' <=? 128 - 24); reflexivity.
Qed.

Lemma float_of_int_nonneg (k : Z) : 0 <= k -> float_le float_zero (float_of_int k) = true.
Proof.
  intros H. unfold float_of_int, binary_normalize.
  destruct k as [|m|m]; [reflexivity| |lia].
  unfold binary_round. destruct (shl_align _ _ _) as [mz ez].
  apply binary_round_aux_nonneg. lia.
Qed.

Lemma draw_nonneg (R k : Z) :
  float_pos_finite (float_of_int R) = true -> 0 <= k ->
  float_le float_zero (draw R k) = true.
Proof.
  intros HR Hk. unfold draw, float_div.
  pose proof (float_of_int_nonneg k Hk) as Hn.
  destruct (float_of_int R) as [| | |[] mR eR]; try discriminate.
  destruct (float_of_int k) as [[]|[]| |[] mk ek]; try discriminate; try reflexivity.
  unfold SFdiv. cbn [xorb].
  destruct (SFdiv_core_binary 24 128 (Z.pos mk) ek (Z.pos mR) eR) as [[mz ez] lz] eqn:E.
  apply binary_round_aux_nonneg.
  unfold SFdiv_core_binary in E.
  set (m' := match _ - _ - _ with Z0 => Z.pos mk | Z.pos _ => _ | Z.neg _ => 0 end) in E.
  assert (0 <= m') as Hm'.
  { subst m'. destruct (_ - _ - _); try lia. apply Z.shiftl_nonneg. lia. }
  pose proof (Z_div_mod m' (Z.pos mR) ltac:(lia)) as Hdm.
  destruct (Z.div_eucl m' (Z.pos mR)) as [q r]. injection E as <- _ _.
  destruct Hdm as [Hq Hr]. nia.
Qed.

Lemma float_lt_nonneg_nonpos (r d : float) :
  float_le float_zero r = true -> float_lt float_zero d = false -> float_lt r d = false.
Proof.
  destruct r as [[]|[]| |[] mr er]; destruct d as [[]|[]| |[] md ed];
    cbn; intros; try discriminate; reflexivity.
Qed.

(** X10. With a [RAND_MAX] that converts to a finite positive [float] and
    a [rand()] that returns nothing below 0, no draw is negative or NaN;
    so for a density that is not above zero (zero, negative or NaN)
    [game_randomize] leaves every cell of the grid dead. *)
Theorem randomize_nonpositive_density (R : Z) (g : Game) (rng : Rng) (d : float) :
  grid_wf g -> float_pos_finite (float_of_int R) = true -> rand_nonneg rng ->
  float_lt float_zero d = false ->
  exists g' rng', game_randomize R g d rng = Ret (g', rng') /\ all_dead g'.
Proof.
  intros Hwf HR Hrng Hd.
  destruct (randomize_result R g rng d Hwf) as ([g' rng'] & E & Hq & Hval).
  cbn [fst] in Hq, Hval. exists g', rng'. split; [exact E|].
  intros x y. destruct (outside g' x y) eqn:Ho.
  - unfold game_get_cell. now rewrite Ho.
  - apply outside_false in Ho. rewrite Hq in Ho. rewrite (Hval x y Ho).
    unfold cell_draw. rewrite float_lt_nonneg_nonpos; auto using draw_nonneg.
Qed.

Lemma randomize_nonpositive_density_witness :
  exists g' rng',
    game_randomize GLIBC_RAND_MAX sample_grid S754_nan
      {| rand_seq := fun n => Z.of_nat n; rand_pos := O |} = Ret (g', rng') /\
    all_dead g'.
Proof.
  apply (randomize_nonpositive_density GLIBC_RAND_MAX sample_grid
           {| rand_seq := fun n => Z.of_nat n; rand_pos := O |} S754_nan).
  - exact (proj1 sample_grid_inv).
  - reflexivity.
  - intros n. cbn. lia.
  - reflexivity.
Defined.

(** ** The catalog in motion *)

Lemma game_create_fresh (a : Allocator) (w h : Z) (g : Game) :
  game_create a w h = Ret (Some g) -> g = fresh_grid w h.
Proof. intros E. now apply game_create_grid in E as [_ ->]. Qed.

Lemma alive_after_spec (n : nat) (g : Game) (l : list (Z * Z)) :
  alive_after n g l = true ->
  exists g', game_steps n g = Ret g' /\
             forall x y, game_get_cell g' x y = Ret (b2z (coord_in l x y)).
Proof.
  unfold alive_after. destruct (game_steps n g) as [g'|]; [|discriminate].
  intros H. exists g'. split; [reflexivity|]. now apply alive_exactly_spec.
Qed.

Lemma alive_after_false (n : nat) (g : Game) (l : list (Z * Z)) :
  alive_after n g l = false ->
  forall g', game_steps n g = Ret g' ->
             ~ forall x y, game_get_cell g' x y = Ret (b2z (coord_in l x y)).
Proof.
  unfold alive_after. intros H g' E. rewrite E in H. intros Hall.
  assert (alive_exactly g' l = true) as Ht; [|congruence].
  unfold alive_exactly. apply andb_true_iff. split.
  - apply forallb_forall. intros y _. apply forallb_forall. intros x _.
    rewrite Hall. apply Z.eqb_refl.
  - apply forallb_forall. intros [cx cy] Hc. cbn [fst snd].
    destruct (outside g' cx cy) eqn:Ho; [|reflexivity]. exfalso.
    specialize (Hall cx cy). unfold game_get_cell in Hall. rewrite Ho in Hall.
    assert (coord_in l cx cy = true) as Hin.
    { unfold coord_in. apply existsb_exists. exists (cx, cy). split; [exact Hc|].
      cbn. now rewrite !Z.eqb_refl. }
    rewrite Hin in Hall. discriminate.
Qed.

Lemma small_range (lo hi x : Z) : lo <= x <= hi -> In x (List.map (fun k => lo + k) (range (hi - lo + 1))).
Proof.
  intros H. apply in_map_iff. exists (x - lo). split; [lia|]. apply range_spec. lia.
Qed.

(** X11. The oscillators of the catalog have the periods patterns.h
    documents: placed on a fresh 16 x 16 grid at any origin from (1,1) to
    (2,2), blinker, toad and beacon show exactly their cells again after 2
    generations and not after 1, and the pulsar after 3 generations and
    not after 1 or 2. *)
Theorem catalog_oscillators (a : Allocator) (g : Game) (t : PatternType) (ox oy : Z) :
  game_create a 16 16 = Ret (Some g) ->
  is_oscillator t = true -> 1 <= ox <= 2 -> 1 <= oy <= 2 ->
  exists g0, pattern_load g t ox oy = Ret g0 /\
    (exists gp, game_steps (pattern_period t) g0 = Ret gp /\
       forall x y, game_get_cell gp x y
                   = Ret (b2z (coord_in (shifted (pattern_coords t) ox oy) x y))) /\
    (forall k gk, (0 < k < pattern_period t)%nat -> game_steps k g0 = Ret gk ->
       ~ forall x y, game_get_cell gk x y
                     = Ret (b2z (coord_in (shifted (pattern_coords t) ox oy) x y))).
Proof.
  intros Hc Ht Hx Hy. apply game_create_fresh in Hc. subst g.
  assert (forallb (fun t =>
            forallb (fun ox => forallb (fun oy => oscillates 16 16 t ox oy)
                                 (List.map (fun k => 1 + k) (range 2)))
              (List.map (fun k => 1 + k) (range 2)))
            [PATTERN_BLINKER; PATTERN_TOAD; PATTERN_BEACON; PATTERN_PULSAR] = true) as Hall
    by (vm_compute; reflexivity).
  rewrite forallb_forall in Hall.
  assert (In t [PATTERN_BLINKER; PATTERN_TOAD; PATTERN_BEACON; PATTERN_PULSAR]) as Hin
    by (destruct t; cbn in *; try discriminate; tauto).
  specialize (Hall t Hin).
  rewrite forallb_forall in Hall. specialize (Hall ox (small_range 1 2 ox Hx)).
  rewrite forallb_forall in Hall. specialize (Hall oy (small_range 1 2 oy Hy)).
  unfold oscillates in Hall.
  destruct (pattern_load (fresh_grid 16 16) t ox oy) as [g0|]; [|discriminate].
  exists g0. split; [reflexivity|].
  apply andb_true_iff in Hall as [Hp Hk]. split.
  - now apply alive_after_spec.
  - intros k gk Hlt. rewrite forallb_forall in Hk.
    specialize (Hk k). rewrite negb_true_iff in Hk.
    apply alive_after_false, Hk, in_seq. lia.
Qed.

Lemma catalog_oscillators_witness :
  exists g0, pattern_load (fresh_grid 16 16) PATTERN_PULSAR 2 1 = Ret g0 /\
    (exists gp, game_steps (pattern_period PATTERN_PULSAR) g0 = Ret gp /\
       forall x y, game_get_cell gp x y
                   = Ret (b2z (coord_in (shifted (pattern_coords PATTERN_PULSAR) 2 1) x y))) /\
    (forall k gk, (0 < k < pattern_period PATTERN_PULSAR)%nat -> game_steps k g0 = Ret gk ->
       ~ forall x y, game_get_cell gk x y
                     = Ret (b2z (coord_in (shifted (pattern_coords PATTERN_PULSAR) 2 1) x y))).
Proof.
  apply (catalog_oscillators granting (fresh_grid 16 16) PATTERN_PULSAR 2 1).
  - reflexivity.
  - reflexivity.
  - lia.
  - lia.
Defined.

(** X12. The glider travels as patterns.h documents: placed on a fresh
    10 x 10 grid at any origin from (0,0) to (5,5), after 4 generations the
    live cells are exactly those of a glider placed one cell further right
    and one cell further down. *)
Theorem glider_translates (a : Allocator) (g : Game) (ox oy : Z) :
  game_create a 10 10 = Ret (Some g) -> 0 <= ox <= 5 -> 0 <= oy <= 5 ->
  exists g0 g4, pattern_load g PATTERN_GLIDER ox oy = Ret g0 /\
    game_steps 4 g0 = Ret g4 /\
    forall x y, game_get_cell g4 x y
                = Ret (b2z (coord_in (shifted glider_coords (ox + 1) (oy + 1)) x y)).
Proof.
  intros Hc Hx Hy. apply game_create_fresh in Hc. subst g.
  assert (forallb (fun ox => forallb (fun oy => glides 10 10 ox oy)
                               (List.map (fun k => 0 + k) (range 6)))
            (List.map (fun k => 0 + k) (range 6)) = true) as Hall
    by (vm_compute; reflexivity).
  rewrite forallb_forall in Hall. specialize (Hall ox (small_range 0 5 ox Hx)).
  rewrite forallb_forall in Hall. specialize (Hall oy (small_range 0 5 oy Hy)).
  unfold glides in Hall.
  destruct (pattern_load (fresh_grid 10 10) PATTERN_GLIDER ox oy) as [g0|]; [|discriminate].
  apply alive_after_spec in Hall as (g4 & E & H).
  exists g0, g4. auto.
Qed.

Lemma glider_translates_witness :
  exists g0 g4, pattern_load (fresh_grid 10 10) PATTERN_GLIDER 0 0 = Ret g0 /\
    game_steps 4 g0 = Ret g4 /\
    forall x y, game_get_cell g4 x y
                = Ret (b2z (coord_in (shifted glider_coords (0 + 1) (0 + 1)) x y)).
Proof.
  apply (glider_translates granting (fresh_grid 10 10) 0 0); [reflexivity | lia | lia].
Defined.

(** ** The argument loop of [main] *)

Lemma list_pair_ind {A : Type} (P : list A -> Prop) :
  P [] -> (forall a, P [a]) -> (forall a v l, P l -> P (a :: v :: l)) ->
  forall l, P l.
Proof.
  intros H0 H1 H2.
  assert (forall l, P l /\ forall a, P (a :: l)) as H.
  { induction l as [|v l [IH1 IH2]]; split; auto. }
  intros l. apply H.
Qed.

Lemma no_option_not_parsed (a : string) (c : Config) : no_option a <> Parsed c.
Proof. unfold no_option. destruct (_ || _); discriminate. Qed.

Section ArgumentFacts.

Variable atoi : string -> Z.
Variable atof_float : string -> float.

Lemma parse_args_app (args rest : list string) :
  forall c c', parse_args atoi atof_float args c = Parsed c' ->
               parse_args atoi atof_float (args ++ rest) c
               = parse_args atoi atof_float rest c'.
Proof.
  induction args as [|a|a v l IH] using list_pair_ind; intros c c' H.
  - cbn in H. injection H as <-. reflexivity.
  - cbn in H. now apply no_option_not_parsed in H.
  - cbn [parse_args app] in *.
    destruct (apply_option atoi atof_float a v c) as [c1|].
    + now apply IH.
    + now apply no_option_not_parsed in H.
Qed.

(** X13. The argument loop of [main] works from left to right: when a
    list of arguments is read to the end, reading it with more arguments
    appended is reading those from the configuration reached.  So a later
    option overrides an earlier one, here for [--width]. *)
Theorem parse_args_compose (args rest : list string) (c c' : Config) :
  parse_args atoi atof_float args c = Parsed c' ->
  parse_args atoi atof_float (args ++ rest) c = parse_args atoi atof_float rest c' /\
  forall v, parse_args atoi atof_float (args ++ ["--width"; v]%string) c
            = Parsed {| cfg_grid_w := atoi v; cfg_grid_h := cfg_grid_h c';
                        cfg_cell_size := cfg_cell_size c';
                        cfg_pattern_name := cfg_pattern_name c';
                        cfg_density := cfg_density c';
                        cfg_target_fps := cfg_target_fps c' |}.
Proof.
  intros H. split; [now apply parse_args_app|].
  intros v. now rewrite (parse_args_app _ _ _ _ H).
Qed.

(** X14. Arguments are read in pairs: a list read to the end has an even
    number of arguments, and one more argument after it, having no value
    to go with, ends [main]: with exit code 0 if it is [--help] or [-h],
    and as an unknown option with exit code 1 otherwise, also when it is
    one of the six option names. *)
Theorem parse_args_last_argument (args : list string) (c c' : Config) (a : string) :
  parse_args atoi atof_float args c = Parsed c' ->
  Nat.Even (length args) /\
  parse_args atoi atof_float (args ++ [a]) c = no_option a /\
  exit_code (parse_args atoi atof_float (args ++ [a]) c)
  = Some (if (strcmp a "--help" =? 0) || (strcmp a "-h" =? 0) then 0 else 1).
Proof.
  intros H. split; [|split].
  - revert c c' H.
    induction args as [|b|b v l IH] using list_pair_ind; intros c c' H.
    + exists O. reflexivity.
    + cbn in H. now apply no_option_not_parsed in H.
    + cbn [parse_args] in H.
      destruct (apply_option atoi atof_float b v c) as [c1|];
        [|now apply no_option_not_parsed in H].
      destruct (IH _ _ H) as [k Hk]. exists (Datatypes.S k). cbn [length]. lia.
  - now rewrite (parse_args_app _ _ _ _ H).
  - rewrite (parse_args_app _ _ _ _ H). cbn [parse_args]. unfold no_option.
    destruct (_ || _); reflexivity.
Qed.

End ArgumentFacts.

Lemma parse_args_compose_witness :
  parse_args (fun _ => 7) (fun _ => float_one)
    (["--fps"; "30"]%string ++ ["--height"; "12"]%string) default_config
  = parse_args (fun _ => 7) (fun _ => float_one) ["--height"; "12"]%string
      {| cfg_grid_w := 80; cfg_grid_h := 60; cfg_cell_size := 10;
         cfg_pattern_name := "random"; cfg_density := float_0_3; cfg_target_fps := 7 |} /\
  forall v, parse_args (fun _ => 7) (fun _ => float_one)
              (["--fps"; "30"]%string ++ ["--width"; v]%string) default_config
            = Parsed {| cfg_grid_w := 7; cfg_grid_h := 60; cfg_cell_size := 10;
                        cfg_pattern_name := "random"; cfg_density := float_0_3;
                        cfg_target_fps := 7 |}.
Proof.
  apply (parse_args_compose (fun _ => 7) (fun _ => float_one)
           ["--fps"; "30"]%string ["--height"; "12"]%string default_config).
  reflexivity.
Defined.

Lemma parse_args_last_argument_witness :
  Nat.Even (length ["--pattern"; "toad"]%string) /\
  parse_args (fun _ => 7) (fun _ => float_one)
    (["--pattern"; "toad"]%string ++ ["--width"]%string) default_config
  = no_option "--width" /\
  exit_code (parse_args (fun _ => 7) (fun _ => float_one)
               (["--pattern"; "toad"]%string ++ ["--width"]%string) default_config)
  = Some (if (strcmp "--width" "--help" =? 0) || (strcmp "--width" "-h" =? 0)
          then 0 else 1).
Proof.
  apply (parse_args_last_argument (fun _ => 7) (fun _ => float_one)
           ["--pattern"; "toad"]%string default_config
           {| cfg_grid_w := 80; cfg_grid_h := 60; cfg_cell_size := 10;
              cfg_pattern_name := "toad"; cfg_density := float_0_3; cfg_target_fps := 10 |}
           "--width"%string).
  reflexivity.
Defined.

(** ** [renderer_draw] *)

Lemma range_succ (i : Z) : 0 <= i -> range (i + 1) = range i ++ [i].
Proof.
  intros H. unfold range.
  replace (Z.to_nat (i + 1)) with (Datatypes.S (Z.to_nat i)) by lia.
  rewrite seq_S, map_app. cbn. now rewrite Z2Nat.id.
Qed.

Lemma for_loop_collect {A : Type} (f : Z -> list A)
    (body : Z -> list A -> outcome (list A)) (n : nat) (tr : list A) :
  (forall i t, 0 <= i < Z.of_nat n -> body i t = Ret (t ++ f i)) ->
  for_loop 0 n body tr = Ret (tr ++ flat_map f (range (Z.of_nat n))).
Proof.
  intros Hbody.
  destruct (for_loop_inv (fun i t => t = tr ++ flat_map f (range i)) body n 0 tr)
    as (t & E & Ht).
  - cbn. now rewrite app_nil_r.
  - intros i t Hi ->. eexists. split; [apply Hbody; lia|].
    rewrite range_succ by lia. rewrite flat_map_app. cbn [flat_map].
    now rewrite app_nil_r, app_assoc.
  - rewrite E, Ht. reflexivity.
Qed.

Lemma draw_cell_value (cs : Z) (g : Game) (x y : Z) (tr : list DrawCmd) :
  grid_wf g -> in_grid g x y -> 1 <= cs ->
  width g * cs <= INT_MAX -> height g * cs <= INT_MAX ->
  draw_cell cs g y x tr
  = Ret (tr ++ (if alive_at g x y then [cell_rect cs x y] else [])).
Proof.
  intros Hwf Hin Hcs Hw Hh. unfold draw_cell, alive_at.
  destruct (get_cell_in_grid g x y Hwf Hin) as (v & _ & ->). cbn [bind].
  destruct (v =? 0); cbn [negb]; [now rewrite app_nil_r|].
  destruct Hin as [Hx Hy].
  unfold int_mul, int_sub. rewrite !int_of_ok by (unfold INT_MIN, INT_MAX in *; nia).
  reflexivity.
Qed.

Lemma flat_map_singleton {A B : Type} (f : A -> B) (l : list A) :
  flat_map (fun a => [f a]) l = List.map f l.
Proof. induction l as [|a l IH]; cbn; [reflexivity | now rewrite IH]. Qed.

(** X15. When the window size fits an [int], [renderer_draw] on a grid
    makes exactly these SDL calls, in this order: background colour and
    clear, the colour of live cells, one filled square of
    [cell_size - 1] pixels at [(x * cell_size, y * cell_size)] for each
    live cell in row-major order, for a cell size of 4 and more the line
    colour and the [width + 1] vertical and [height + 1] horizontal grid
    lines, and the present call. *)
Theorem renderer_draw_trace (r : Renderer) (g : Game) :
  grid_wf g -> renderer_fits r g ->
  renderer_draw r g
  = Ret ([SDL_SetRenderDrawColor 20 20 20 255; SDL_RenderClear;
          SDL_SetRenderDrawColor 0 200 0 255]
         ++ live_rects (cell_size r) g ++ grid_lines (cell_size r) g
         ++ [SDL_RenderPresent]).
Proof.
  intros Hwf (Hcs & Hw0 & Hh0 & Hw & Hh). unfold renderer_draw.
  set (cs := cell_size r) in *.
  rewrite (for_loop_collect
             (fun y => flat_map (fun x => if alive_at g x y then [cell_rect cs x y] else [])
                         (range (width g)))).
  2:{ intros y t Hy.
      rewrite (for_loop_collect
                 (fun x => if alive_at g x y then [cell_rect cs x y] else [])).
      - now rewrite Z2Nat.id by lia.
      - intros x t' Hx. apply draw_cell_value; try assumption. unfold in_grid. lia. }
  rewrite Z2Nat.id by lia. cbn [bind]. fold (live_rects cs g).
  unfold grid_lines. destruct (cs >=? 4) eqn:E4.
  - apply Z.geb_le in E4.
    assert (width g + 1 <= INT_MAX /\ height g + 1 <= INT_MAX) as [Hw1 Hh1]
      by (unfold INT_MAX in *; nia).
    unfold for_loop_le.
    destruct (Z.ltb_spec (width g) 0); [lia|]. destruct (Z.ltb_spec (height g) 0); [lia|].
    unfold int_add. rewrite !int_of_ok by (unfold INT_MIN; lia). cbn [bind].
    rewrite (for_loop_collect
               (fun x => [SDL_RenderDrawLine (x * cs) 0 (x * cs) (height g * cs)])).
    2:{ intros x t Hx. unfold draw_vline, int_mul.
        rewrite !int_of_ok by (unfold INT_MIN, INT_MAX in *; nia). reflexivity. }
    cbn [bind].
    rewrite (for_loop_collect
               (fun y => [SDL_RenderDrawLine 0 (y * cs) (width g * cs) (y * cs)])).
    2:{ intros y t Hy. unfold draw_hline, int_mul.
        rewrite !int_of_ok by (unfold INT_MIN, INT_MAX in *; nia). reflexivity. }
    cbn [bind]. rewrite !Z2Nat.id by lia. rewrite !flat_map_singleton.
    f_equal. rewrite <- !app_assoc. cbn [app]. rewrite <- ?app_assoc. reflexivity.
  - cbn [bind]. now rewrite <- !app_assoc.
Qed.

Lemma renderer_draw_trace_witness :
  renderer_draw {| cell_size := 4; grid_w := 3; grid_h := 2 |} sample_grid
  = Ret ([SDL_SetRenderDrawColor 20 20 20 255; SDL_RenderClear;
          SDL_SetRenderDrawColor 0 200 0 255]
         ++ live_rects 4 sample_grid ++ grid_lines 4 sample_grid
         ++ [SDL_RenderPresent]).
Proof.
  apply (renderer_draw_trace {| cell_size := 4; grid_w := 3; grid_h := 2 |} sample_grid).
  - exact (proj1 sample_grid_inv).
  - unfold renderer_fits, INT_MAX. cbn. lia.
Defined.

(** X16. Under the same conditions, the filled squares [renderer_draw]
    draws are those of the live cells and no others, and each lies inside
    the window, leaving the last pixel row and column of its cell free. *)
Theorem renderer_draws_live_cells (r : Renderer) (g : Game) :
  grid_wf g -> renderer_fits r g ->
  exists tr, renderer_draw r g = Ret tr /\
    forall px py w h,
      In (SDL_RenderFillRect px py w h) tr <->
      exists x y, in_grid g x y /\ alive_at g x y = true /\
                  px = x * cell_size r /\ py = y * cell_size r /\
                  w = cell_size r - 1 /\ h = cell_size r - 1 /\
                  0 <= px /\ px + w < width g * cell_size r /\
                  0 <= py /\ py + h < height g * cell_size r.
Proof.
  intros Hwf Hfit. eexists. split; [apply (renderer_draw_trace r g Hwf Hfit)|].
  destruct Hfit as (Hcs & Hw0 & Hh0 & Hw & Hh). set (cs := cell_size r) in *.
  intros px py w h. rewrite !in_app_iff. split.
  - intros [H|[H|[H|H]]].
    + cbn in H. repeat (destruct H as [H|H]; [discriminate H|]). destruct H.
    + unfold live_rects in H. apply in_flat_map in H as (y & Hy & H).
      apply in_flat_map in H as (x & Hx & H).
      apply range_spec in Hy, Hx.
      destruct (alive_at g x y) eqn:Ea; [|destruct H].
      destruct H as [H|[]]. unfold cell_rect in H. injection H as <- <- <- <-.
      exists x, y. unfold in_grid. repeat split; try assumption; try lia; try nia.
    + unfold grid_lines in H. destruct (cs >=? 4); [|destruct H].
      destruct H as [H|H]; [discriminate H|].
      apply in_app_iff in H as [H|H]; apply in_map_iff in H as (k & H & _); discriminate H.
    + destruct H as [H|[]]. discriminate H.
  - intros (x & y & [Hx Hy] & Ea & -> & -> & -> & -> & _).
    right. left. unfold live_rects. apply in_flat_map. exists y.
    split; [now apply range_spec|]. apply in_flat_map. exists x.
    split; [now apply range_spec|]. rewrite Ea. left. reflexivity.
Qed.

Lemma renderer_draws_live_cells_witness :
  exists tr, renderer_draw {| cell_size := 4; grid_w := 3; grid_h := 2 |} sample_grid = Ret tr /\
    forall px py w h,
      In (SDL_RenderFillRect px py w h) tr <->
      exists x y, in_grid sample_grid x y /\ alive_at sample_grid x y = true /\
                  px = x * 4 /\ py = y * 4 /\ w = 4 - 1 /\ h = 4 - 1 /\
                  0 <= px /\ px + w < width sample_grid * 4 /\
                  0 <= py /\ py + h < height sample_grid * 4.
Proof.
  apply (renderer_draws_live_cells {| cell_size := 4; grid_w := 3; grid_h := 2 |} sample_grid).
  - exact (proj1 sample_grid_inv).
  - unfold renderer_fits, INT_MAX. cbn. lia.
Defined.

(** ** [renderer_draw_hud] *)

Lemma string_length_app (s1 s2 : string) :
  String.length (s1 ++ s2) = (String.length s1 + String.length s2)%nat.
Proof. induction s1 as [|c s1 IH]; cbn; [reflexivity | now rewrite IH]. Qed.

Lemma digits_value_app (s1 s2 : string) :
  forall acc, digits_value acc (s1 ++ s2) = digits_value (digits_value acc s1) s2.
Proof. induction s1 as [|c s1 IH]; intros acc; cbn; [reflexivity | apply IH]. Qed.

Lemma digit_char_value (d : Z) : 0 <= d < 10 -> Z.of_N (N_of_ascii (digit_char d)) - 48 = d.
Proof.
  intros H. unfold digit_char. rewrite N_ascii_embedding; lia.
Qed.

(** [fmt_d] prints the decimal digits of its argument: read back, they give
    the number. *)
Lemma dec_digits_value (fuel : nat) :
  forall n, 0 <= n < 2 ^ Z.of_nat fuel -> digits_value 0 (dec_digits fuel n) = n.
Proof.
  induction fuel as [|f IH]; intros n Hn.
  - cbn in *. lia.
  - cbn [dec_digits]. destruct (Z.ltb_spec n 10).
    + cbn. rewrite digit_char_value; lia.
    + rewrite digits_value_app, IH.
      * cbn. rewrite digit_char_value by (apply Z.mod_pos_bound; lia).
        pose proof (Z.div_mod n 10). lia.
      * rewrite Nat2Z.inj_succ, Z.pow_succ_r in Hn by lia.
        split; [apply Z.div_pos; lia|]. apply Z.div_lt_upper_bound; lia.
Qed.

Lemma fmt_d_value (z : Z) :
  (0 <= z -> digits_value 0 (fmt_d z) = z) /\
  (z < 0 -> exists s, fmt_d z = String "-" s /\ digits_value 0 s = - z).
Proof.
  assert (forall n, 0 <= n -> n < 2 ^ Z.of_nat (Datatypes.S (Z.to_nat (Z.log2 n)))) as Hlog.
  { intros n Hn. rewrite Nat2Z.inj_succ, Z2Nat.id by apply Z.log2_nonneg.
    destruct (Z.eq_dec n 0) as [->|]; [reflexivity|].
    apply Z.log2_spec. lia. }
  unfold fmt_d. split; intros H.
  - destruct (Z.ltb_spec z 0); [lia|]. apply dec_digits_value. split; [lia|]. now apply Hlog.
  - destruct (Z.ltb_spec z 0); [|lia]. eexists. split; [reflexivity|].
    apply dec_digits_value. split; [lia|]. apply Hlog. lia.
Qed.

Lemma dec_digits_length (fuel : nat) :
  forall n k, (1 <= k)%nat -> 0 <= n < 10 ^ Z.of_nat k ->
              (String.length (dec_digits fuel n) <= k)%nat.
Proof.
  induction fuel as [|f IH]; intros n k Hk Hn; cbn [dec_digits].
  - cbn. lia.
  - destruct (Z.ltb_spec n 10); [cbn; lia|].
    rewrite string_length_app. cbn [String.length].
    destruct k as [|[|k]]; [lia | cbn in Hn; lia |].
    specialize (IH (n / 10) (Datatypes.S k) ltac:(lia)).
    rewrite (Nat2Z.inj_succ (Datatypes.S k)), Z.pow_succ_r in Hn by lia.
    assert (0 <= n / 10 < 10 ^ Z.of_nat (Datatypes.S k)) as Hq.
    { split; [apply Z.div_pos; lia|]. apply Z.div_lt_upper_bound; lia. }
    specialize (IH Hq). lia.
Qed.

Lemma fmt_d_length (z : Z) :
  INT_MIN <= z <= INT_MAX -> (String.length (fmt_d z) <= 11)%nat.
Proof.
  intros H. unfold INT_MIN, INT_MAX in H.
  assert (10 ^ Z.of_nat 10 = 10000000000) as E10 by reflexivity.
  unfold fmt_d. destruct (Z.ltb_spec z 0).
  - cbn [String.length].
    assert (String.length (dec_digits (Datatypes.S (Z.to_nat (Z.log2 (- z)))) (- z)) <= 10)%nat;
      [|lia].
    apply dec_digits_length; [lia|]. rewrite E10. lia.
  - assert (String.length (dec_digits (Datatypes.S (Z.to_nat (Z.log2 z))) z) <= 10)%nat;
      [|lia].
    apply dec_digits_length; [lia|]. rewrite E10. lia.
Qed.

(** X17. The 128-byte buffer of [renderer_draw_hud] is never too small:
    for any [int] values of the generation and the FPS the title is the
    whole text, with [" | PAUSED"] at the end exactly when [paused] is not
    0, and it has at most 59 characters. *)
Theorem hud_title_fits (generation paused fps : Z) :
  INT_MIN <= generation <= INT_MAX -> INT_MIN <= fps <= INT_MAX ->
  renderer_draw_hud generation paused fps
  = ("Game of Life | Gen: " ++ fmt_d generation ++ " | FPS: " ++ fmt_d fps
       ++ (if (paused =? 0)%Z then "" else " | PAUSED"))%string /\
  (String.length (renderer_draw_hud generation paused fps) <= 59)%nat.
Proof.
  intros Hg Hf.
  pose proof (fmt_d_length generation Hg) as Lg.
  pose proof (fmt_d_length fps Hf) as Lf.
  set (text := ("Game of Life | Gen: " ++ fmt_d generation ++ " | FPS: " ++ fmt_d fps
                  ++ (if (paused =? 0)%Z then "" else " | PAUSED"))%string).
  assert (String.length text <= 59)%nat as L.
  { subst text. rewrite !string_length_app.
    assert (String.length (if (paused =? 0)%Z then "" else " | PAUSED")%string <= 9)%nat
      by (destruct (paused =? 0)%Z; cbn; lia).
    cbn [String.length]. lia. }
  assert (renderer_draw_hud generation paused fps = text) as E.
  { unfold renderer_draw_hud, snprintf. fold text.
    destruct (Z.ltb_spec (Z.of_nat (String.length text)) 128); [reflexivity | lia]. }
  split; [exact E | now rewrite E].
Qed.

Lemma hud_title_fits_witness :
  renderer_draw_hud (-2147483648) 1 2147483647
  = ("Game of Life | Gen: " ++ fmt_d (-2147483648) ++ " | FPS: " ++ fmt_d 2147483647
       ++ (if (1 =? 0)%Z then "" else " | PAUSED"))%string /\
  (String.length (renderer_draw_hud (-2147483648) 1 2147483647) <= 59)%nat.
Proof.
  apply (hud_title_fits (-2147483648) 1 2147483647); unfold INT_MIN, INT_MAX; lia.
Defined.

(** ** The main loop *)

Lemma frame_delay_of_value (fps : Z) :
  1 <= fps <= 61 ->
  frame_delay_of fps = Ret (Z.quot 1000 fps) /\ 16 <= Z.quot 1000 fps <= 1000.
Proof.
  intros H. rewrite Z.quot_div_nonneg by lia.
  assert (16 <= 1000 / fps <= 1000) as Hq.
  { split; [apply Z.div_le_lower_bound; lia | apply Z.div_le_upper_bound; lia]. }
  split; [|exact Hq]. unfold frame_delay_of, int_div.
  destruct (Z.eqb_spec fps 0); [lia|].
  rewrite Z.quot_div_nonneg by lia.
  rewrite int_of_ok by (unfold INT_MIN, INT_MAX; lia). cbn [bind].
  unfold to_uint32. now rewrite Z.mod_small by lia.
Qed.

Section MainLoopFacts.

Variable RAND_MAX : Z.
Variable density : float.
Variable renderer : Renderer.

Lemma handle_event_ok (bound : Z) (left : nat) (ev : Event) (st : Loop) :
  loop_ok bound left st ->
  exists st', handle_event RAND_MAX density ev st = Ret st' /\
              loop_ok bound left st' /\
              width (game st') = width (game st) /\
              height (game st') = height (game st).
Proof.
  intros (Hinv & Hfps & Hd & Hg0 & Hg & Hb).
  assert (forall run pau gen fps,
             1 <= fps <= 61 -> 0 <= gen -> gen + Z.of_nat left <= bound ->
             loop_ok bound left
               {| running := run; paused := pau; generation := gen; target_fps := fps;
                  frame_delay := Z.quot 1000 fps; game := game st; rng := rng st |}) as Hsame.
  { intros run pau gen fps H1 H2 H3. split; [exact Hinv|]. cbn. repeat split; lia. }
  assert (loop_ok bound left st) as Hst.
  { split; [exact Hinv|]. repeat split; lia. }
  destruct ev as [|[]|]; cbn [handle_event].
  - eexists. split; [reflexivity|]. rewrite Hd. split; [|split; reflexivity].
    apply Hsame; lia.
  - eexists. split; [reflexivity|]. rewrite Hd. split; [|split; reflexivity].
    apply Hsame; lia.
  - eexists. split; [reflexivity|]. rewrite Hd. split; [|split; reflexivity].
    apply Hsame; lia.
  - destruct (randomize_result RAND_MAX (game st) (rng st) density (proj1 Hinv))
      as ([g' r'] & E & _). rewrite E. cbn [bind fst snd].
    eexists. split; [reflexivity|].
    pose proof (randomize_preserves _ _ _ _ _ _ _ grid_inv_write_closed E Hinv) as Hinv'.
    destruct (randomize_preserves _ _ _ _ _ _ _
                (same_dims_write_closed (width (game st)) (height (game st))) E
                (conj eq_refl eq_refl)) as [Hw Hh].
    split; [|split; assumption].
    split; [exact Hinv'|]. cbn. repeat split; lia.
  - destruct (Z.ltb_spec (target_fps st) 60); [|eauto].
    unfold int_add. rewrite int_of_ok by (unfold INT_MIN, INT_MAX; lia). cbn [bind].
    destruct (frame_delay_of_value (target_fps st + 2)) as [-> _]; [lia|]. cbn [bind].
    eexists. split; [reflexivity|]. split; [|split; reflexivity]. apply Hsame; lia.
  - destruct (Z.ltb_spec (target_fps st) 60); [|eauto].
    unfold int_add. rewrite int_of_ok by (unfold INT_MIN, INT_MAX; lia). cbn [bind].
    destruct (frame_delay_of_value (target_fps st + 2)) as [-> _]; [lia|]. cbn [bind].
    eexists. split; [reflexivity|]. split; [|split; reflexivity]. apply Hsame; lia.
  - destruct (Z.gtb_spec (target_fps st) 1); [|eauto].
    unfold int_sub. rewrite int_of_ok by (unfold INT_MIN, INT_MAX; lia). cbn [bind].
    set (fps := if target_fps st - 2 <? 1 then 1 else target_fps st - 2).
    assert (1 <= fps <= 61) as Hfps'
      by (subst fps; destruct (Z.ltb_spec (target_fps st - 2) 1); lia).
    destruct (frame_delay_of_value fps Hfps') as [-> _]. cbn [bind].
    eexists. split; [reflexivity|]. split; [|split; reflexivity]. apply Hsame; lia.
  - eauto.
  - eauto.
Qed.

Lemma handle_events_ok (bound : Z) (left : nat) (evs : list Event) :
  forall st, loop_ok bound left st ->
  exists st', handle_events RAND_MAX density evs st = Ret st' /\
              loop_ok bound left st' /\
              width (game st') = width (game st) /\
              height (game st') = height (game st).
Proof.
  induction evs as [|ev evs IH]; intros st Hok; cbn [handle_events].
  - eauto.
  - destruct (handle_event_ok bound left ev st Hok) as (st1 & -> & Hok1 & Hw1 & Hh1).
    cbn [bind]. destruct (IH st1 Hok1) as (st' & E & Hok' & Hw & Hh).
    exists st'. split; [exact E|]. split; [exact Hok'|]. split; congruence.
Qed.

Lemma frame_ok (bound : Z) (left : nat) (evs : list Event) (st : Loop) :
  loop_ok bound (Datatypes.S left) st -> renderer_fits renderer (game st) ->
  exists st' scr, frame RAND_MAX density renderer evs st = Ret (st', scr) /\
                  loop_ok bound left st' /\
                  width (game st') = width (game st) /\
                  height (game st') = height (game st).
Proof.
  intros Hok Hfit. unfold frame.
  destruct (handle_events_ok bound (Datatypes.S left) evs st Hok)
    as (st1 & -> & (Hinv & Hfps & Hd & Hg0 & Hg & Hb) & Hw1 & Hh1).
  cbn [bind].
  assert (exists st2,
             (if paused st1 =? 0
              then
                let! g := game_step (game st1) in
                let! gen := int_add (generation st1) 1 in
                Ret {| running := running st1; paused := paused st1; generation := gen;
                       target_fps := target_fps st1; frame_delay := frame_delay st1;
                       game := g; rng := rng st1 |}
              else Ret st1) = Ret st2 /\
             loop_ok bound left st2 /\
             width (game st2) = width (game st1) /\ height (game st2) = height (game st1))
    as (st2 & -> & Hok2 & Hw2 & Hh2).
  { destruct (paused st1 =? 0).
    - destruct (game_step_inv (game st1) Hinv) as (g' & E & Hinv').
      destruct (game_step_result (game st1) (proj1 Hinv) (proj1 (proj2 Hinv)))
        as (g'' & E' & Hw & Hh & _).
      rewrite E in E'. injection E' as <-. rewrite E. cbn [bind].
      unfold int_add. rewrite int_of_ok by (unfold INT_MIN; lia). cbn [bind].
      eexists. split; [reflexivity|]. split; [|split; assumption].
      split; [exact Hinv'|]. cbn. repeat split; lia.
    - exists st1. split; [reflexivity|]. split; [|split; reflexivity].
      split; [exact Hinv|]. repeat split; lia. }
  cbn [bind].
  assert (renderer_fits renderer (game st2)) as Hfit2.
  { unfold renderer_fits in *. now rewrite Hw2, Hh2, Hw1, Hh1. }
  rewrite (renderer_draw_trace renderer (game st2) (proj1 (proj1 Hok2)) Hfit2). cbn [bind].
  do 2 eexists. split; [reflexivity|]. split; [exact Hok2|]. split; congruence.
Qed.

Lemma main_loop_ok (bound : Z) (batches : list (list Event)) :
  forall st shown,
    loop_ok bound (length batches) st -> renderer_fits renderer (game st) ->
    exists st' shown', main_loop RAND_MAX density renderer batches st shown
                       = Ret (st', shown') /\
                       loop_ok bound 0 st' /\
                       width (game st') = width (game st) /\
                       height (game st') = height (game st).
Proof.
  induction batches as [|evs batches IH]; intros st shown Hok Hfit; cbn [main_loop].
  - do 2 eexists. split; [reflexivity|]. split; [exact Hok|]. split; reflexivity.
  - destruct (running st =? 0).
    + do 2 eexists. split; [reflexivity|].
      destruct Hok as (Hinv & ? & ? & ? & ? & ?). split; [|split; reflexivity].
      split; [exact Hinv|]. repeat split; lia.
    + destruct (frame_ok bound (length batches) evs st Hok Hfit)
        as (st1 & scr & -> & Hok1 & Hw1 & Hh1). cbn [bind fst snd].
      assert (renderer_fits renderer (game st1)) as Hfit1
        by (unfold renderer_fits in *; now rewrite Hw1, Hh1).
      destruct (IH st1 (shown ++ [scr]) Hok1 Hfit1) as (st' & shown' & E & Hok' & Hw & Hh).
      exists st', shown'. split; [exact E|]. split; [exact Hok'|]. split; congruence.
Qed.

(** X18. The main loop cannot go wrong before the generation counter
    overflows.  Started after the FPS clamp on a grid of the data model
    whose window fits an [int], and run for any events over any number of
    frames an [int] can count, it meets no undefined behaviour: no cell
    access out of bounds, no overflow, no division by zero.  At the end the
    grid is still one of the data model with its dimensions unchanged, the
    target FPS lies in 1..61 (61 is reached from 59), the frame delay is
    [1000 / target_fps], between 16 and 1000, and the generation count is
    at most the number of frames. *)
Theorem main_loop_safe (fps : Z) (g : Game) (r : Rng) (batches : list (list Event)) :
  grid_inv g -> renderer_fits renderer g -> Z.of_nat (length batches) <= INT_MAX ->
  exists st0 st shown,
    initial_loop (clamp_fps fps) g r = Ret st0 /\
    main_loop RAND_MAX density renderer batches st0 [] = Ret (st, shown) /\
    grid_inv (game st) /\ width (game st) = width g /\ height (game st) = height g /\
    1 <= target_fps st <= 61 /\
    frame_delay st = Z.quot 1000 (target_fps st) /\ 16 <= frame_delay st <= 1000 /\
    0 <= generation st <= Z.of_nat (length batches).
Proof.
  intros Hinv Hfit Hlen.
  assert (1 <= clamp_fps fps <= 60) as Hc.
  { unfold clamp_fps. destruct (Z.ltb_spec fps 1).
    - destruct (Z.gtb_spec 1 60); lia.
    - destruct (Z.gtb_spec fps 60); lia. }
  unfold initial_loop.
  destruct (frame_delay_of_value (clamp_fps fps)) as [-> _]; [lia|]. cbn [bind].
  eexists. 
  destruct (main_loop_ok (Z.of_nat (length batches)) batches
              {| running := 1; paused := 0; generation := 0; target_fps := clamp_fps fps;
                 frame_delay := Z.quot 1000 (clamp_fps fps); game := g; rng := r |} [])
    as (st & shown & E & (Hinv' & Hfps & Hd & Hg0 & Hg & _) & Hw & Hh).
  - split; [exact Hinv|]. cbn. repeat split; lia.
  - exact Hfit.
  - exists st, shown. split; [reflexivity|]. split; [exact E|].
    cbn [game] in Hw, Hh.
    destruct (frame_delay_of_value (target_fps st) Hfps) as [_ Hrange].
    split; [exact Hinv'|]. repeat split; try assumption; lia.
Qed.

End MainLoopFacts.

Lemma main_loop_safe_witness :
  exists st0 st shown,
    initial_loop (clamp_fps 59) sample_grid zero_rng = Ret st0 /\
    main_loop GLIBC_RAND_MAX float_one {| cell_size := 4; grid_w := 3; grid_h := 2 |}
      [[SDL_KEYDOWN SDLK_PLUS]; [SDL_KEYDOWN SDLK_r; SDL_KEYDOWN SDLK_MINUS]; [SDL_QUIT]]
      st0 [] = Ret (st, shown) /\
    grid_inv (game st) /\ width (game st) = width sample_grid /\
    height (game st) = height sample_grid /\
    1 <= target_fps st <= 61 /\
    frame_delay st = Z.quot 1000 (target_fps st) /\ 16 <= frame_delay st <= 1000 /\
    0 <= generation st
    <= Z.of_nat (length [[SDL_KEYDOWN SDLK_PLUS];
                         [SDL_KEYDOWN SDLK_r; SDL_KEYDOWN SDLK_MINUS]; [SDL_QUIT]]).
Proof.
  apply (main_loop_safe GLIBC_RAND_MAX float_one {| cell_size := 4; grid_w := 3; grid_h := 2 |}
           59 sample_grid zero_rng).
  - exact sample_grid_inv.
  - unfold renderer_fits, INT_MAX. cbn. lia.
  - unfold INT_MAX. cbn. lia.
Defined.

(** The bound 61 on the target FPS is reached: one press of [+] at 59. *)
Example fps_reaches_61 :
  handle_event GLIBC_RAND_MAX float_one (SDL_KEYDOWN SDLK_PLUS)
    {| running := 1; paused := 0; generation := 0; target_fps := 59; frame_delay := 16;
       game := sample_grid; rng := zero_rng |}
  = Ret {| running := 1; paused := 0; generation := 0; target_fps := 61; frame_delay := 16;
           game := sample_grid; rng := zero_rng |}.
Proof. reflexivity. Qed.

Section MainLoopRuns.

Variable RAND_MAX : Z.
Variable density : float.
Variable renderer : Renderer.

Lemma quiet_event (ev : Event) (st st' : Loop) :
  quiet ev = true -> handle_event RAND_MAX density ev st = Ret st' ->
  game st' = game st /\ generation st' = generation st /\
  paused st' = paused st /\ running st' = running st.
Proof.
  destruct ev as [|[]|]; cbn [quiet handle_event]; try discriminate; intros _ E.
  - destruct (target_fps st <? 60); [|now injection E as <-].
    apply bind_ret in E as (f & _ & E). apply bind_ret in E as (d & _ & E).
    now injection E as <-.
  - destruct (target_fps st <? 60); [|now injection E as <-].
    apply bind_ret in E as (f & _ & E). apply bind_ret in E as (d & _ & E).
    now injection E as <-.
  - destruct (target_fps st >? 1); [|now injection E as <-].
    apply bind_ret in E as (f & _ & E). apply bind_ret in E as (d & _ & E).
    now injection E as <-.
  - now injection E as <-.
  - now injection E as <-.
Qed.

Lemma quiet_events (evs : list Event) :
  forall st st', Forall (fun ev => quiet ev = true) evs ->
    handle_events RAND_MAX density evs st = Ret st' ->
    game st' = game st /\ generation st' = generation st /\
    paused st' = paused st /\ running st' = running st.
Proof.
  induction evs as [|ev evs IH]; intros st st' Hq E; cbn [handle_events] in E.
  - now injection E as <-.
  - apply Forall_cons in Hq as [Hev Hq].
    apply bind_ret in E as (st1 & E1 & E).
    destruct (quiet_event ev st st1 Hev E1) as (<- & <- & <- & <-).
    now apply IH.
Qed.

Lemma quiet_frame (evs : list Event) (st st' : Loop) (scr : Screen) :
  Forall (fun ev => quiet ev = true) evs ->
  frame RAND_MAX density renderer evs st = Ret (st', scr) ->
  paused st' = paused st /\ running st' = running st /\
  game_steps (if paused st =? 0 then 1 else 0) (game st) = Ret (game st') /\
  generation st' = generation st + (if paused st =? 0 then 1 else 0).
Proof.
  intros Hq E. unfold frame in E.
  apply bind_ret in E as (st1 & E1 & E).
  destruct (quiet_events evs st st1 Hq E1) as (Hg & Hgen & Hp & Hr).
  apply bind_ret in E as (st2 & E2 & E). apply bind_ret in E as (tr & _ & E).
  injection E as <- _. rewrite <- Hp, <- Hr, <- Hg, <- Hgen.
  destruct (paused st1 =? 0).
  - apply bind_ret in E2 as (g' & Eg & E2). apply bind_ret in E2 as (gen & Egen & E2).
    injection E2 as <-. cbn. apply int_of_ret in Egen as [-> _].
    rewrite Eg. repeat split.
  - injection E2 as <-. repeat split. lia.
Qed.

Lemma game_steps_add (n m : nat) :
  forall g g1, game_steps n g = Ret g1 -> game_steps (n + m) g = game_steps m g1.
Proof.
  induction n as [|n IH]; intros g g1 E; cbn [game_steps Nat.add] in *.
  - now injection E as <-.
  - apply bind_ret in E as (g' & -> & E). cbn [bind]. now apply IH.
Qed.

(** X19. Frames are generations.  While the loop is running and only
    events arrive that neither quit, pause nor refill, [n] frames show [n]
    screens; if the loop is not paused the grid is then the result of [n]
    calls of [game_step] and the generation count has grown by [n]; if it
    is paused, grid and count are what they were. *)
Theorem frames_are_generations (batches : list (list Event)) :
  forall (st : Loop) (shown : list Screen),
    loop_ok INT_MAX (length batches) st -> renderer_fits renderer (game st) ->
    running st <> 0 ->
    Forall (Forall (fun ev => quiet ev = true)) batches ->
    exists st' screens,
      main_loop RAND_MAX density renderer batches st shown = Ret (st', shown ++ screens) /\
      length screens = length batches /\
      game_steps (if paused st =? 0 then length batches else 0) (game st)
      = Ret (game st') /\
      generation st'
      = generation st + (if paused st =? 0 then Z.of_nat (length batches) else 0).
Proof.
  induction batches as [|evs batches IH]; intros st shown Hok Hfit Hrun Hq;
    cbn [main_loop length].
  - exists st, []. rewrite app_nil_r. destruct (paused st =? 0); cbn; repeat split; lia.
  - apply Forall_cons in Hq as [Hevs Hq].
    destruct (Z.eqb_spec (running st) 0); [contradiction|].
    destruct (frame_ok RAND_MAX density renderer INT_MAX (length batches) evs st Hok Hfit)
      as (st1 & scr & E & Hok1 & Hw1 & Hh1).
    rewrite E. cbn [bind fst snd].
    destruct (quiet_frame evs st st1 scr Hevs E) as (Hp & Hr & Hstep & Hgen).
    assert (renderer_fits renderer (game st1)) as Hfit1
      by (unfold renderer_fits in *; now rewrite Hw1, Hh1).
    destruct (IH st1 (shown ++ [scr]) Hok1 Hfit1 ltac:(congruence) Hq)
      as (st' & screens & E' & Hlen & Hsteps & Hgen').
    exists st', (scr :: screens). rewrite E', <- app_assoc. cbn [app length].
    split; [reflexivity|]. split; [lia|].
    rewrite Hp in Hsteps, Hgen'. rewrite Hgen', Hgen.
    destruct (paused st =? 0).
    + split; [|lia].
      change (Datatypes.S (length batches)) with (1 + length batches)%nat.
      now rewrite (game_steps_add 1 (length batches) (game st) (game st1) Hstep).
    + cbn [game_steps] in *. split; [congruence | lia].
Qed.

Lemma running_stays_zero (ev : Event) (st st' : Loop) :
  handle_event RAND_MAX density ev st = Ret st' ->
  (quits ev = true \/ running st = 0) -> running st' = 0.
Proof.
  destruct ev as [|[]|]; cbn [quits handle_event]; intros E [H|H];
    try discriminate H; try (now injection E as <-).
  - apply bind_ret in E as (s & _ & E). now injection E as <-.
  - destruct (target_fps st <? 60); [|now injection E as <-].
    apply bind_ret in E as (f & _ & E). apply bind_ret in E as (d & _ & E).
    now injection E as <-.
  - destruct (target_fps st <? 60); [|now injection E as <-].
    apply bind_ret in E as (f & _ & E). apply bind_ret in E as (d & _ & E).
    now injection E as <-.
  - destruct (target_fps st >? 1); [|now injection E as <-].
    apply bind_ret in E as (f & _ & E). apply bind_ret in E as (d & _ & E).
    now injection E as <-.
Qed.

Lemma quit_events (evs : list Event) :
  forall st st', handle_events RAND_MAX density evs st = Ret st' ->
    (existsb quits evs = true \/ running st = 0) -> running st' = 0.
Proof.
  induction evs as [|ev evs IH]; intros st st' E H; cbn [handle_events existsb] in *.
  - injection E as <-. destruct H; [discriminate | assumption].
  - apply bind_ret in E as (st1 & E1 & E). apply (IH st1 st' E).
    destruct H as [H|H].
    + apply orb_true_iff in H as [H|H]; [right | now left].
      apply (running_stays_zero ev st st1 E1). now left.
    + right. apply (running_stays_zero ev st st1 E1). now right.
Qed.

Lemma handle_events_handled (evs : list Event) :
  forall st st1, handle_events RAND_MAX density evs st = Ret st1 <->
                 handled RAND_MAX density evs st st1.
Proof.
  induction evs as [|ev evs IH]; intros st st1; cbn [handle_events]; split.
  - intros [= <-]. constructor.
  - intros H. inversion H. reflexivity.
  - intros E. apply bind_ret in E as (s & Es & E).
    econstructor; [exact Es|]. now apply IH.
  - intros H. inversion H as [|? ? ? s ? Es Hrest]; subst.
    rewrite Es. cbn [bind]. now apply IH.
Qed.

Lemma frame_parts (evs : list Event) (st st' : Loop) (scr : Screen) :
  frame RAND_MAX density renderer evs st = Ret (st', scr) ->
  exists st1 tr,
    handled RAND_MAX density evs st st1 /\
    (if paused st1 =? 0
     then game_step (game st1) = Ret (game st') /\ generation st' = generation st1 + 1
     else game st' = game st1 /\ generation st' = generation st1) /\
    running st' = running st1 /\ paused st' = paused st1 /\
    target_fps st' = target_fps st1 /\ frame_delay st' = frame_delay st1 /\
    rng st' = rng st1 /\
    renderer_draw renderer (game st') = Ret tr /\
    scr = (tr, renderer_draw_hud (generation st') (paused st') (target_fps st')).
Proof.
  intros E. unfold frame in E.
  apply bind_ret in E as (s1 & E1 & E). apply bind_ret in E as (s2 & E2 & E).
  apply bind_ret in E as (tr & Etr & E). injection E as <- <-.
  exists s1, tr. split; [now apply handle_events_handled|].
  destruct (paused s1 =? 0) eqn:Ep.
  - apply bind_ret in E2 as (g' & Eg & E2). apply bind_ret in E2 as (gen & Egen & E2).
    apply int_of_ret in Egen as [-> _]. injection E2 as <-. cbn in *.
    repeat split; assumption.
  - injection E2 as <-. repeat split; assumption.
Qed.

(** X20. A quit request ends the loop after the frame it arrives in.
    When the events of a frame contain [SDL_QUIT] or the escape key, the
    loop ends with [running] 0 and no event of a later frame is looked at.
    The frame itself is completed: every event of it, also those behind
    the quit request, is handled by [handle_event] in order; then the grid
    is stepped and the generation counted unless the loop is paused by
    then; and the screen of that state is shown last. *)
Theorem quit_ends_loop (evs : list Event) (rest : list (list Event)) (st : Loop)
    (shown : list Screen) :
  existsb quits evs = true ->
  main_loop RAND_MAX density renderer (evs :: rest) st shown
  = main_loop RAND_MAX density renderer [evs] st shown /\
  (forall st' shown', main_loop RAND_MAX density renderer (evs :: rest) st shown
                      = Ret (st', shown') -> running st' = 0) /\
  (running st <> 0 ->
   forall st' shown', main_loop RAND_MAX density renderer (evs :: rest) st shown
                      = Ret (st', shown') ->
   exists st1 tr,
     handled RAND_MAX density evs st st1 /\
     (if paused st1 =? 0
      then game_step (game st1) = Ret (game st') /\ generation st' = generation st1 + 1
      else game st' = game st1 /\ generation st' = generation st1) /\
     paused st' = paused st1 /\ target_fps st' = target_fps st1 /\
     frame_delay st' = frame_delay st1 /\ rng st' = rng st1 /\
     renderer_draw renderer (game st') = Ret tr /\
     shown' = shown ++ [(tr, renderer_draw_hud (generation st') (paused st')
                               (target_fps st'))]).
Proof.
  intros Hq.
  assert (forall st1 scr, frame RAND_MAX density renderer evs st = Ret (st1, scr) ->
                          running st1 = 0) as Hframe.
  { intros st1 scr E. unfold frame in E.
    apply bind_ret in E as (s1 & E1 & E).
    pose proof (quit_events evs st s1 E1 (or_introl Hq)) as Hr.
    apply bind_ret in E as (s2 & E2 & E). apply bind_ret in E as (tr & _ & E).
    injection E as <- _.
    destruct (paused s1 =? 0).
    - apply bind_ret in E2 as (g' & _ & E2). apply bind_ret in E2 as (gen & _ & E2).
      now injection E2 as <-.
    - now injection E2 as <-. }
  assert (forall st1 sh, running st1 = 0 ->
            main_loop RAND_MAX density renderer rest st1 sh = Ret (st1, sh)) as Hstop.
  { intros st1 sh H. destruct rest; cbn [main_loop]; [reflexivity|]. now rewrite H. }
  cbn [main_loop]. destruct (Z.eqb_spec (running st) 0) as [H0|H0].
  - split; [reflexivity|]. split; [now intros st' shown' [= <- _] | contradiction].
  - destruct (frame RAND_MAX density renderer evs st) as [[st1 scr]|] eqn:E; cbn [bind fst snd].
    + pose proof (Hframe st1 scr eq_refl) as Hr. rewrite (Hstop _ _ Hr).
      split; [reflexivity|]. split; [now intros st' shown' [= <- _]|].
      intros _ st' shown' [= <- <-].
      destruct (frame_parts evs st st1 scr E)
        as (s1 & tr & Hh & Hstep & _ & Hp & Hf & Hd & Hrng & Htr & ->).
      exists s1, tr. repeat split; assumption.
    + split; [reflexivity|]. split; [discriminate|]. intros _ ? ?. discriminate.
Qed.

End MainLoopRuns.

Lemma frames_are_generations_witness :
  exists st' screens,
    main_loop GLIBC_RAND_MAX float_one {| cell_size := 4; grid_w := 3; grid_h := 2 |}
      [[SDL_KEYDOWN SDLK_PLUS]; [SDL_other]]
      {| running := 1; paused := 0; generation := 0; target_fps := 10; frame_delay := 100;
         game := sample_grid; rng := zero_rng |} []
    = Ret (st', [] ++ screens) /\
    length screens = length [[SDL_KEYDOWN SDLK_PLUS]; [SDL_other]] /\
    game_steps (if 0 =? 0 then length [[SDL_KEYDOWN SDLK_PLUS]; [SDL_other]] else 0)
      sample_grid = Ret (game st') /\
    generation st'
    = 0 + (if 0 =? 0 then Z.of_nat (length [[SDL_KEYDOWN SDLK_PLUS]; [SDL_other]]) else 0).
Proof.
  apply (frames_are_generations GLIBC_RAND_MAX float_one
           {| cell_size := 4; grid_w := 3; grid_h := 2 |}
           [[SDL_KEYDOWN SDLK_PLUS]; [SDL_other]]
           {| running := 1; paused := 0; generation := 0; target_fps := 10;
              frame_delay := 100; game := sample_grid; rng := zero_rng |} []).
  - split; [exact sample_grid_inv|]. unfold INT_MAX. cbn. repeat split; lia.
  - unfold renderer_fits, INT_MAX. cbn. lia.
  - cbn. lia.
  - repeat constructor.
Defined.

Lemma quit_ends_loop_witness :
  (main_loop GLIBC_RAND_MAX float_one {| cell_size := 4; grid_w := 3; grid_h := 2 |}
     ([SDL_KEYDOWN SDLK_ESCAPE; SDL_KEYDOWN SDLK_SPACE] :: [[SDL_KEYDOWN SDLK_r]])
     {| running := 1; paused := 0; generation := 0; target_fps := 10; frame_delay := 100;
        game := sample_grid; rng := zero_rng |} []
   = main_loop GLIBC_RAND_MAX float_one {| cell_size := 4; grid_w := 3; grid_h := 2 |}
       [[SDL_KEYDOWN SDLK_ESCAPE; SDL_KEYDOWN SDLK_SPACE]]
       {| running := 1; paused := 0; generation := 0; target_fps := 10; frame_delay := 100;
          game := sample_grid; rng := zero_rng |} [] /\
   (forall st' shown',
      main_loop GLIBC_RAND_MAX float_one {| cell_size := 4; grid_w := 3; grid_h := 2 |}
        ([SDL_KEYDOWN SDLK_ESCAPE; SDL_KEYDOWN SDLK_SPACE] :: [[SDL_KEYDOWN SDLK_r]])
        {| running := 1; paused := 0; generation := 0; target_fps := 10; frame_delay := 100;
           game := sample_grid; rng := zero_rng |} []
      = Ret (st', shown') -> running st' = 0) /\
   (1 <> 0 ->
    forall st' shown',
      main_loop GLIBC_RAND_MAX float_one {| cell_size := 4; grid_w := 3; grid_h := 2 |}
        ([SDL_KEYDOWN SDLK_ESCAPE; SDL_KEYDOWN SDLK_SPACE] :: [[SDL_KEYDOWN SDLK_r]])
        {| running := 1; paused := 0; generation := 0; target_fps := 10; frame_delay := 100;
           game := sample_grid; rng := zero_rng |} []
      = Ret (st', shown') ->
      exists st1 tr,
        handled GLIBC_RAND_MAX float_one
          [SDL_KEYDOWN SDLK_ESCAPE; SDL_KEYDOWN SDLK_SPACE]
          {| running := 1; paused := 0; generation := 0; target_fps := 10;
             frame_delay := 100; game := sample_grid; rng := zero_rng |} st1 /\
        (if paused st1 =? 0
         then game_step (game st1) = Ret (game st') /\ generation st' = generation st1 + 1
         else game st' = game st1 /\ generation st' = generation st1) /\
        paused st' = paused st1 /\ target_fps st' = target_fps st1 /\
        frame_delay st' = frame_delay st1 /\ rng st' = rng st1 /\
        renderer_draw {| cell_size := 4; grid_w := 3; grid_h := 2 |} (game st') = Ret tr /\
        shown' = [] ++ [(tr, renderer_draw_hud (generation st') (paused st')
                               (target_fps st'))])) /\
  (* the run itself: the space key behind the escape key has paused the
     loop, so the grid is not stepped *)
  exists shown',
    main_loop GLIBC_RAND_MAX float_one {| cell_size := 4; grid_w := 3; grid_h := 2 |}
      ([SDL_KEYDOWN SDLK_ESCAPE; SDL_KEYDOWN SDLK_SPACE] :: [[SDL_KEYDOWN SDLK_r]])
      {| running := 1; paused := 0; generation := 0; target_fps := 10; frame_delay := 100;
         game := sample_grid; rng := zero_rng |} []
    = Ret ({| running := 0; paused := 1; generation := 0; target_fps := 10;
              frame_delay := 100; game := sample_grid; rng := zero_rng |}, shown').
Proof.
  split.
  - apply (quit_ends_loop GLIBC_RAND_MAX float_one
             {| cell_size := 4; grid_w := 3; grid_h := 2 |}
             [SDL_KEYDOWN SDLK_ESCAPE; SDL_KEYDOWN SDLK_SPACE] [[SDL_KEYDOWN SDLK_r]]).
    reflexivity.
  - eexists. reflexivity.
Defined.

(** ** Loading the initial state *)

Lemma quot_4_bounds (w : Z) :
  INT_MIN <= w <= INT_MAX -> INT_MIN <= Z.quot w 4 <= INT_MAX - 35.
Proof.
  unfold INT_MIN, INT_MAX. intros H. pose proof (Z.quot_rem' w 4) as E.
  destruct (Z_le_gt_dec 0 w).
  - pose proof (Z.rem_bound_pos_pos w 4 ltac:(lia) ltac:(lia)). lia.
  - pose proof (Z.rem_bound_pos_neg w 4 ltac:(lia) ltac:(lia)). lia.
Qed.

Lemma catalog_placement_fits (t : PatternType) (ox oy : Z) :
  INT_MIN <= ox <= INT_MAX - 35 -> INT_MIN <= oy <= INT_MAX - 35 ->
  placement_fits (pattern_coords t) ox oy = true.
Proof.
  intros Hx Hy.
  assert (forallb (fun c => (0 <=? fst c) && (fst c <=? 35) && (0 <=? snd c) && (snd c <=? 35))
            (pattern_coords t) = true) as Hb by (destruct t; reflexivity).
  unfold placement_fits. rewrite forallb_forall in *. intros c Hc.
  specialize (Hb c Hc). rewrite !andb_true_iff, !Z.leb_le in Hb.
  unfold int_ok. rewrite !andb_true_iff, !Z.leb_le. lia.
Qed.

Lemma cleared_all_dead (g : Game) :
  grid_wf g ->
  all_dead {| width := width g; height := height g;
              cells := replicate (length (cells g)) 0;
              next := replicate (length (next g)) 0 |}.
Proof.
  intros [Hs Hc Hn] x y.
  set (g' := {| width := width g; height := height g;
                cells := replicate (length (cells g)) 0;
                next := replicate (length (next g)) 0 |}).
  assert (grid_wf g') as Hwf' by (split; cbn; rewrite ?length_replicate; auto).
  destruct (outside g' x y) eqn:Ho.
  - unfold game_get_cell. now rewrite Ho.
  - apply outside_false in Ho.
    destruct (get_cell_in_grid g' x y Hwf' Ho) as (v & Hv & ->).
    cbn [cells g'] in Hv. apply lookup_replicate in Hv as [-> _]. reflexivity.
Qed.

(** X21. The initial state [main] loads.  For a pattern name of the
    catalog, whatever the grid held, the live cells are exactly those
    coordinates of the pattern, moved to a quarter of the configured width
    and height, that fall inside the grid; no random number is drawn.  For
    any other name, ["random"] or an unknown one, the grid is filled by
    [game_randomize] with the configured density. *)
Theorem load_initial_cases (R : Z) (c : Config) (g : Game) (r : Rng) :
  grid_wf g ->
  INT_MIN <= cfg_grid_w c <= INT_MAX -> INT_MIN <= cfg_grid_h c <= INT_MAX ->
  (forall t, In (cfg_pattern_name c) (pattern_names t) ->
     exists g', load_initial R c g r = Ret (g', r) /\
       forall x y, game_get_cell g' x y
                   = Ret (b2z (negb (outside g x y)
                               && coord_in (pattern_coords t)
                                    (x - Z.quot (cfg_grid_w c) 4)
                                    (y - Z.quot (cfg_grid_h c) 4)))) /\
  (~ In (cfg_pattern_name c) recognized_names ->
     load_initial R c g r = game_randomize R g (cfg_density c) r).
Proof.
  intros Hwf Hw Hh. split.
  - intros t Hname. unfold load_initial.
    assert ((strcmp (cfg_pattern_name c) "random" =? 0) = false) as ->.
    { apply strcmp_other. intros E. rewrite E in Hname.
      destruct t; cbn in Hname; repeat (destruct Hname as [Hname|Hname]; [discriminate|]);
        destruct Hname. }
    rewrite (pattern_from_name_names _ None t Hname). cbn [fst snd Z.eqb].
    rewrite (game_clear_value g Hwf). cbn [bind].
    pose proof (quot_4_bounds _ Hw) as Hqw. pose proof (quot_4_bounds _ Hh) as Hqh.
    unfold int_div. cbn [Z.eqb].
    rewrite !int_of_ok by (unfold INT_MAX in *; lia). cbn [bind].
    set (g1 := {| width := width g; height := height g;
                  cells := replicate (length (cells g)) 0;
                  next := replicate (length (next g)) 0 |}).
    assert (grid_wf g1) as Hwf1
      by (destruct Hwf; split; cbn; rewrite ?length_replicate; auto).
    rewrite pattern_load_set_cells.
    destruct (set_cells_cells g1 (Z.quot (cfg_grid_w c) 4) (Z.quot (cfg_grid_h c) 4)
                (pattern_coords t) Hwf1 (catalog_placement_fits t _ _ Hqw Hqh))
      as (g' & -> & Hcells & _).
    cbn [bind]. exists g'. split; [reflexivity|].
    intros x y. rewrite Hcells. change (outside g1 x y) with (outside g x y).
    subst g1. rewrite (cleared_all_dead g Hwf x y).
    now destruct (negb (outside g x y) && _).
  - intros Hname. unfold load_initial.
    destruct (strcmp (cfg_pattern_name c) "random" =? 0); [reflexivity|].
    now rewrite (pattern_from_name_unknown _ None Hname).
Qed.

Lemma load_initial_cases_witness :
  (forall t, In "toad"%string (pattern_names t) ->
     exists g', load_initial GLIBC_RAND_MAX
                  {| cfg_grid_w := 10; cfg_grid_h := 10; cfg_cell_size := 10;
                     cfg_pattern_name := "toad"; cfg_density := float_0_3;
                     cfg_target_fps := 10 |} fresh_10x10 zero_rng = Ret (g', zero_rng) /\
       forall x y, game_get_cell g' x y
                   = Ret (b2z (negb (outside fresh_10x10 x y)
                               && coord_in (pattern_coords t)
                                    (x - Z.quot 10 4) (y - Z.quot 10 4)))) /\
  (~ In "toad"%string recognized_names ->
     load_initial GLIBC_RAND_MAX
       {| cfg_grid_w := 10; cfg_grid_h := 10; cfg_cell_size := 10;
          cfg_pattern_name := "toad"; cfg_density := float_0_3;
          cfg_target_fps := 10 |} fresh_10x10 zero_rng
     = game_randomize GLIBC_RAND_MAX fresh_10x10 float_0_3 zero_rng).
Proof.
  apply (load_initial_cases GLIBC_RAND_MAX
           {| cfg_grid_w := 10; cfg_grid_h := 10; cfg_cell_size := 10;
              cfg_pattern_name := "toad"; cfg_density := float_0_3;
              cfg_target_fps := 10 |} fresh_10x10 zero_rng).
  - split; cbn; unfold INT_MAX; lia.
  - unfold INT_MIN, INT_MAX. cbn. lia.
  - unfold INT_MIN, INT_MAX. cbn. lia.
Defined.
